(** * SeleniumDriver: a session facade over selenium-webdriver

    Shallow embedding of [src/SeleniumDriver.js] and proofs about it.

    The source file holds two revisions of the class: an earlier copy
    (lines 1-232, no JSDoc) and the documented copy (lines 234-573).
    Both are embedded: the definitions take a [Revision] and branch on it
    at exactly the places where the two copies differ. The rendered
    documentation holds a third copy that adds [scrollTo]; what it adds is
    embedded apart, in the module [Docs].

    Modelling conventions
    - A JavaScript string is a [string]; one [ascii] stands for one UTF-16
      code unit, so the model covers strings of code units below 256.
    - An [async] method is a state-passing computation that ends in
      [Resolved v] (the promise is fulfilled) or [Rejected e] (it is
      rejected, i.e. the error is raised to whoever awaits it).
    - selenium-webdriver and the Node runtime are collaborators: their
      operations are the fields of the class [Driver], over an abstract
      world [W]. The general theorems hold for every implementation of it;
      the module [Sim] is one implementation, on which the methods run. *)

From Stdlib Require Import ZArith String Ascii List.
From stdpp Require Import base option list strings pretty gmap.

Local Open Scope Z_scope.

(** ** JavaScript values *)

(** A regular expression object; the facade never runs it, it only hands it
    to the driver's conditions and prints it. *)
Record RegExp := mkRegExp { re_source : string; re_flags : string }.

(** The values the facade stores in its options object, throws and catches. *)
Inductive JsVal :=
| VUndefined
| VNull
| VBool (b : bool)
| VNum (n : Z)
| VStr (s : string)
| VError (message : string).   (* an Error object *)

(** The documented type [string|RegExp] of a match target. *)
Inductive MatchTarget :=
| Lit (s : string)
| Pat (r : RegExp).

#[global] Instance RegExp_eq_dec : EqDecision RegExp.
Proof. solve_decision. Defined.
#[global] Instance JsVal_eq_dec : EqDecision JsVal.
Proof. solve_decision. Defined.
#[global] Instance MatchTarget_eq_dec : EqDecision MatchTarget.
Proof. solve_decision. Defined.

(** ** String primitives of the language *)

Module Js.

Definition chars : string -> list ascii := String.list_ascii_of_string.
Definition str : list ascii -> string := String.string_of_list_ascii.

Definition code (c : ascii) : N := Ascii.N_of_ascii c.

Definition isUpper (c : ascii) : bool := ((65 <=? code c) && (code c <=? 90))%N.
Definition isLower (c : ascii) : bool := ((97 <=? code c) && (code c <=? 122))%N.
Definition isDigit (c : ascii) : bool := ((48 <=? code c) && (code c <=? 57))%N.

(** The character class [a-zA-Z0-9]. *)
Definition isAlnum (c : ascii) : bool := isLower c || isUpper c || isDigit c.

(** WhiteSpace and LineTerminator code units below 256: TAB, LF, VT, FF,
    CR, SP and NBSP. *)
Definition isWhiteSpace (c : ascii) : bool :=
  let n := code c in
  ((9 <=? n) && (n <=? 13) || (n =? 32) || (n =? 160))%N.

Fixpoint dropWhile {A} (p : A -> bool) (l : list A) : list A :=
  match l with
  | [] => []
  | x :: l' => if p x then dropWhile p l' else l
  end.

(** Removes the longest suffix whose elements all satisfy [p]. *)
Definition dropWhileEnd {A} (p : A -> bool) (l : list A) : list A :=
  rev (dropWhile p (rev l)).

(** [String.prototype.trim] *)
Definition trim (s : string) : string :=
  str (dropWhileEnd isWhiteSpace (dropWhile isWhiteSpace (chars s))).

(** [String.prototype.toLowerCase] on one code unit below 256: the ASCII
    capitals and the Latin-1 capitals U+00C0..U+00DE except U+00D7. *)
Definition lowerChar (c : ascii) : ascii :=
  let n := code c in
  if isUpper c then Ascii.ascii_of_N (n + 32)
  else if ((192 <=? n) && (n <=? 222) && negb (n =? 215))%N
       then Ascii.ascii_of_N (n + 32)
       else c.

Definition toLowerCase (s : string) : string := str (map lowerChar (chars s)).

(** [s.substr(0, 1)] *)
Definition substr01 (s : string) : string :=
  match s with
  | EmptyString => EmptyString
  | String c _ => String c EmptyString
  end.

(** [s.split(' ')]: the pieces between consecutive single spaces; empty
    pieces are kept, and the empty string gives one empty piece. *)
Fixpoint splitSpaceFrom (cur : list ascii) (l : list ascii) : list string :=
  match l with
  | [] => [str (rev cur)]
  | c :: l' =>
      if Ascii.eqb c " "%char
      then str (rev cur) :: splitSpaceFrom [] l'
      else splitSpaceFrom (c :: cur) l'
  end.
Definition splitSpace (s : string) : list string := splitSpaceFrom [] (chars s).

(** [pieces.join(sep)] *)
Fixpoint join (sep : string) (pieces : list string) : string :=
  match pieces with
  | [] => ""
  | [p] => p
  | p :: rest => p +:+ sep +:+ join sep rest
  end.

(** Line feed, for the ["\n"] of the source. *)
Definition LF : string := String (Ascii.ascii_of_N 10) EmptyString.

End Js.

(** [`${v}`] and [String(v)]: the language's ToString on the modelled values.
    A number of the model is an integer and prints all its digits; the
    language prints numbers from 1e21 on in exponent form. *)
Definition toString (v : JsVal) : string :=
  match v with
  | VUndefined => "undefined"
  | VNull => "null"
  | VBool true => "true"
  | VBool false => "false"
  | VNum n => pretty n
  | VStr s => s
  | VError m => if decide (m = "") then "Error" else "Error: " +:+ m
  end.

(** [`${r}`] for a regular expression. *)
Definition regexpToString (r : RegExp) : string :=
  "/" +:+ re_source r +:+ "/" +:+ re_flags r.

Definition searchToString (search : MatchTarget) : string :=
  match search with
  | Lit s => s
  | Pat r => regexpToString r
  end.

(** [search.constructor === RegExp] *)
Definition isRegExp (search : MatchTarget) : bool :=
  match search with Pat _ => true | Lit _ => false end.

(** ** Pure helpers of the class *)

(** [_pagePath (page)], lines 195-203 and 524-532. *)
Definition _pagePath (page : string) : string :=
  if negb (bool_decide (Js.substr01 page = "/")) then "/" +:+ page else page.

(** [_matchText (search, exact)], lines 205-215 and 540-550. *)
Definition _matchText (search : MatchTarget) (exact : bool) : string :=
  let text :=
    if isRegExp search then "matches"
    else if exact then "is"
    else "contains" in
  text +:+ ": '" +:+ searchToString search +:+ "'".

(** [_matchTextNot (search, exact)], lines 217-229 and 558-570. *)
Definition _matchTextNot (search : MatchTarget) (exact : bool) : string :=
  let text :=
    if isRegExp search then "did not " +:+ "match"
    else if exact then "was not"
    else "did not " +:+ "contain" in
  text +:+ ": '" +:+ searchToString search +:+ "'".

(** The slug of the directory name in [error], lines 177 and 503:
    [msg.trim().replace(/[^a-zA-Z0-9]/g, '-').toLowerCase().replace(/[-]*$/, '')].
    The last replace is not global: it removes the first match of [[-]*$],
    which starts at the leftmost position from which only hyphens follow,
    that is, it removes the whole trailing run of hyphens. *)
Definition replaceNonAlnum (s : string) : string :=
  Js.str (map (fun c => if Js.isAlnum c then c else "-"%char) (Js.chars s)).

Definition stripTrailingHyphens (s : string) : string :=
  Js.str (Js.dropWhileEnd (fun c => Ascii.eqb c "-"%char) (Js.chars s)).

Definition slug (msg : string) : string :=
  stripTrailingHyphens (Js.toLowerCase (replaceNonAlnum (Js.trim msg))).

(** The text composed by [elementSelector], lines 165-173 and 486-494, from
    the tag name and the [id] and [class] attributes; an attribute the
    element does not have reads as [null], here [None]. *)
Definition nonBlank (attr : option string) : bool :=
  match attr with
  | None => false
  | Some a => negb (bool_decide (a = "")) && negb (bool_decide (Js.trim a = ""))
  end.

Definition selectorText (tag : string) (id className : option string) : string :=
  let selector := tag in
  let selector :=
    if nonBlank id then selector +:+ "#" +:+ default "" id else selector in
  let selector :=
    if nonBlank className
    then selector +:+ "." +:+ Js.join "." (Js.splitSpace (default "" className))
    else selector in
  selector.

(** ** The options object *)

Inductive Revision :=
| Rev1    (* the copy at lines 1-232 *)
| Rev2.   (* the documented copy at lines 234-573 *)

(** [o.k]: reading a property that is absent gives [undefined]. *)
Definition getProp (o : gmap string JsVal) (k : string) : JsVal :=
  default VUndefined (o !! k).

(** [process.env.BASE_URL || 'http://localhost:3000'] *)
Definition baseUrlDefault (env_BASE_URL : option string) : string :=
  match env_BASE_URL with
  | Some u => if bool_decide (u = "") then "http://localhost:3000" else u
  | None => "http://localhost:3000"
  end.

(** [defaults], lines 5-13 and 263-270. *)
Definition defaults (rev : Revision) (env_BASE_URL : option string)
  : gmap string JsVal :=
  let common : gmap string JsVal :=
    <["timeout" := VNum 1000]>
    (<["browser" := VStr "chrome"]>
    (<["baseUrl" := VStr (baseUrlDefault env_BASE_URL)]>
    (<["logLevel" := VStr "SEVERE"]>
    (<["homePagePath" := VStr "/"]>
    (<["debugDirectory" := VStr "tmp/selenium-debug"]> ∅))))) in
  match rev with
  | Rev1 => <["notificationsParent" := VStr ".notifications"]> common
  | Rev2 => common
  end.

(** [Object.assign({}, defaults, options)]: every own key of [options]
    is copied over the defaults; a missing [options] argument copies
    nothing. *)
Definition assignOptions (dflt : gmap string JsVal)
    (options : option (gmap string JsVal)) : gmap string JsVal :=
  match options with
  | Some o => o ∪ dflt
  | None => dflt
  end.

(** Lines 17-22 and 282-287 of the constructor. [Level k] says whether
    [logging.Level[k]] is truthy; the table belongs to selenium-webdriver
    and is a parameter here. *)
Definition resolveOptions (Level : string -> bool) (rev : Revision)
    (env_BASE_URL : option string) (options : option (gmap string JsVal))
  : gmap string JsVal :=
  let dflt := defaults rev env_BASE_URL in
  let opts := assignOptions dflt options in
  if negb (Level (toString (getProp opts "logLevel")))
  then <["logLevel" := getProp dflt "logLevel"]> opts
  else opts.

(** The log levels that the JSDoc of [DriverOptions] lists. *)
Definition documentedLevels : list string :=
  ["OFF"; "SEVERE"; "WARNING"; "INFO"; "DEBUG"; "ALL"].

(** A level table that recognises exactly the documented names. It is
    one possible table, smaller than the library's. *)
Definition documentedLevel (k : string) : bool :=
  bool_decide (k ∈ documentedLevels).

(** The levels that selenium-webdriver's [logging.Level] has as static
    members (its [lib/logging.js], which is not part of this repository).
    Property names that the class inherits, such as [constructor] and
    [name], are truthy keys of [logging.Level] as well and are not
    listed: every name below is known to the library's table, not the
    converse. *)
Definition libraryLevels : list string :=
  ["ALL"; "DEBUG"; "FINE"; "FINER"; "FINEST"; "INFO"; "OFF"; "SEVERE"; "WARNING"].

Definition libraryLevel (k : string) : bool :=
  bool_decide (k ∈ libraryLevels).

(** The facade object: [this.options] and [this.timeout]; [this.driver] is
    the session that lives in the collaborator's world. *)
Record SeleniumDriver := mkSeleniumDriver {
  options : gmap string JsVal;
  timeout : JsVal
}.

(** ** Promises and the collaborators *)

(** How a call ends: the promise is fulfilled with a value, or rejected
    with the thrown value. A synchronous throw is a [Rejected] too. *)
Inductive Outcome (A : Type) :=
| Resolved (a : A)
| Rejected (e : JsVal).
Arguments Resolved {A} a.
Arguments Rejected {A} e.

Definition isResolved {A} (o : Outcome A) : bool :=
  match o with Resolved _ => true | Rejected _ => false end.

Definition isRejected {A} (o : Outcome A) : bool := negb (isResolved o).

(** An opaque element reference. *)
Definition WebElement := nat.

(** [By.css(...)] and [By.tagName(...)] *)
Inductive By :=
| css (selector : string)
| tagName (name : string).

(** The conditions built by [until.*]. *)
Inductive Condition :=
| elementLocated (locator : By)
| elementIsVisible (element : WebElement)
| elementTextMatches (element : WebElement) (r : RegExp)
| elementTextIs (element : WebElement) (text : string)
| elementTextContains (element : WebElement) (text : string)
| elementIsSelected (element : WebElement)
| stalenessOf (element : WebElement)
| titleMatches (r : RegExp)
| titleIs (title : string)
| titleContains (title : string)
| urlMatches (r : RegExp)
| urlIs (url : string)
| urlContains (url : string).

(** An argument of [sendKeys]. *)
Inductive Keys :=
| KeyText (s : string)
| KeyENTER.

(** An entry of the browser console log. *)
Record LogEntry := mkLogEntry {
  log_timestamp : Z;
  log_level_name : string;
  log_message : string
}.

(** What the facade asks of selenium-webdriver and of the Node runtime, as
    transitions of a world [W]. [driver_wait c t] is [driver.wait(c, t)]:
    it rejects when the condition does not hold within the timeout.
    [fs_writeFile] is the asynchronous write whose callback only logs. *)
Class Driver (W : Type) := {
  driver_build : JsVal -> JsVal -> W -> Outcome unit * W;
  driver_deleteAllCookies : W -> Outcome unit * W;
  driver_quit : W -> Outcome unit * W;
  driver_get : string -> W -> Outcome unit * W;
  driver_wait : Condition -> JsVal -> W -> Outcome unit * W;
  driver_findElement : By -> W -> Outcome WebElement * W;
  driver_logs_get : string -> W -> Outcome (list LogEntry) * W;
  driver_takeScreenshot : W -> Outcome string * W;
  element_click : WebElement -> W -> Outcome unit * W;
  element_sendKeys : WebElement -> list Keys -> W -> Outcome unit * W;
  element_findElements : WebElement -> By -> W -> Outcome (list WebElement) * W;
  element_getAttribute : WebElement -> string -> W -> Outcome (option string) * W;
  element_getText : WebElement -> W -> Outcome string * W;
  element_getTagName : WebElement -> W -> Outcome string * W;
  Date_now : W -> Z * W;
  execSync : string -> W -> Outcome string * W;
  fs_appendFileSync : string -> string -> W -> Outcome unit * W;
  fs_writeFile : string -> string -> string -> W -> W;
  console_log : string -> W -> W
}.

(** The state a method runs in: the collaborator's world, and the values
    of the promises that were rejected with nobody awaiting them. *)
Record State (W : Type) := mkState {
  world : W;
  unhandled : list JsVal
}.
Arguments mkState {W} world unhandled.
Arguments world {W} s.
Arguments unhandled {W} s.

Definition Async (W A : Type) : Type := State W -> Outcome A * State W.

Section Monad.
Context {W : Type}.

Definition ret {A} (a : A) : Async W A := fun s => (Resolved a, s).

Definition throw {A} (e : JsVal) : Async W A := fun s => (Rejected e, s).

(** [await m] followed by the rest of the body. *)
Definition bind {A B} (m : Async W A) (k : A -> Async W B) : Async W B :=
  fun s =>
    match m s with
    | (Resolved a, s') => k a s'
    | (Rejected e, s') => (Rejected e, s')
    end.

(** [try { body } catch (e) { handler }] *)
Definition tryCatch {A} (body : Async W A) (handler : JsVal -> Async W A)
  : Async W A :=
  fun s =>
    match body s with
    | (Resolved a, s') => (Resolved a, s')
    | (Rejected e, s') => handler e s'
    end.

(** A collaborator call that can throw. *)
Definition call {A} (op : W -> Outcome A * W) : Async W A :=
  fun s =>
    let (o, w') := op (world s) in
    (o, mkState w' (unhandled s)).

(** A collaborator call that cannot throw. *)
Definition callTotal {A} (op : W -> A * W) : Async W A :=
  fun s =>
    let (a, w') := op (world s) in
    (Resolved a, mkState w' (unhandled s)).

Definition effect (op : W -> W) : Async W unit :=
  fun s => (Resolved tt, mkState (op (world s)) (unhandled s)).

(** Calling an [async] method as a statement, without [await]: the caller
    goes on whatever becomes of the promise, and a rejection reaches
    nobody. The callee's effects are placed here, at the call. *)
Definition detach {A} (m : Async W A) : Async W unit :=
  fun s =>
    match m s with
    | (Resolved _, s') => (Resolved tt, s')
    | (Rejected e, s') => (Resolved tt, mkState (world s') (e :: unhandled s'))
    end.

End Monad.

Notation "x <- m ;; k" := (bind m (fun x => k))
  (at level 100, m at next level, right associativity).
Notation "m ;;; k" := (bind m (fun _ => k))
  (at level 100, right associativity).

(** Calling a method on [undefined], as in [element.click()] when
    [element] was never assigned. *)
Definition TypeError (what : string) : JsVal := VError ("TypeError: " +:+ what).

(** The [TypeError] of [object.member(...)] when [object] holds [v], which
    is not a string: reading a member of [undefined] or [null] fails on the
    access, any other value has no such method. The texts are the engine's
    (V8, since Node 16). *)
Definition methodTypeError (object member : string) (v : JsVal) : JsVal :=
  match v with
  | VUndefined =>
      TypeError ("Cannot read properties of undefined (reading '" +:+ member +:+ "')")
  | VNull =>
      TypeError ("Cannot read properties of null (reading '" +:+ member +:+ "')")
  | _ => TypeError (object +:+ "." +:+ member +:+ " is not a function")
  end.

(** ** The methods of the class *)

Section Facade.
Context {W : Type} `{Driver W}.

(** The constructor, lines 16-31 and 281-296. *)
Definition newSeleniumDriver (Level : string -> bool) (rev : Revision)
    (env_BASE_URL : option string) (opts : option (gmap string JsVal))
  : Async W SeleniumDriver :=
  let this_options := resolveOptions Level rev env_BASE_URL opts in
  let this_timeout :=
    getProp (assignOptions (defaults rev env_BASE_URL) opts) "timeout" in
  call (driver_build (getProp this_options "browser")
                     (getProp this_options "logLevel")) ;;;
  ret (mkSeleniumDriver this_options this_timeout).

(** [x.m(...)] where [x] may be [undefined]. *)
Definition onElement {A} (x : option WebElement) (method : string)
    (m : WebElement -> Async W A) : Async W A :=
  match x with
  | Some el => m el
  | None =>
      throw (methodTypeError "" method VUndefined)
  end.

(** One line of [browser.log]. *)
Definition logLine (e : LogEntry) : string :=
  "[" +:+ pretty (log_timestamp e) +:+ "] (" +:+ log_level_name e +:+ ") - "
      +:+ log_message e.

Definition debugNote (dirName : string) : string :=
  Js.LF +:+ Js.LF +:+ "Debug files created in: " +:+ dirName +:+ Js.LF.

(** [error (msg)], lines 176-193 and 502-518. [Rev1] prints the note and
    the listing and throws [msg]; [Rev2] appends them to [msg]. *)
Definition error (rev : Revision) (this : SeleniumDriver) (msg : JsVal)
  : Async W unit :=
  now <- callTotal Date_now ;;
  match msg with
  | VStr text =>
      let dirName :=
        toString (getProp (options this) "debugDirectory") +:+ "/"
          +:+ pretty now +:+ "-" +:+ slug text in
      logs <- call (driver_logs_get "browser") ;;
      _ <- call (execSync ("mkdir -p " +:+ dirName)) ;;
      call (fs_appendFileSync (dirName +:+ "/browser.log")
                              (Js.join Js.LF (map logLine logs))) ;;;
      shot <- call driver_takeScreenshot ;;
      effect (fs_writeFile (dirName +:+ "/screenshot.png") shot "base64") ;;;
      match rev with
      | Rev1 =>
          effect (console_log ("Debug files created in: " +:+ dirName)) ;;;
          listing <- call (execSync ("ls -l " +:+ dirName)) ;;
          effect (console_log listing) ;;;
          throw (VError text)
      | Rev2 =>
          listing <- call (execSync ("ls -l " +:+ dirName)) ;;
          throw (VError (text +:+ debugNote dirName +:+ listing))
      end
  | other => throw (methodTypeError "msg" "trim" other)
  end.

(** [elementSelector (element)], lines 159-174 and 480-495. *)
Definition elementSelector (element : WebElement) : Async W string :=
  id <- call (element_getAttribute element "id") ;;
  className <- call (element_getAttribute element "class") ;;
  tag <- call (element_getTagName element) ;;
  ret (selectorText tag id className).

(** [if (content)]: [undefined] and the empty string are falsy. *)
Definition contentGiven (content : option MatchTarget) : bool :=
  match content with
  | None => false
  | Some (Lit s) => negb (bool_decide (s = ""))
  | Some (Pat _) => true
  end.

(** The [try] block of [expectElement], lines 109-125 and 414-430. *)
Definition expectElement_try (this : SeleniumDriver) (selector : string)
    (content : option MatchTarget) (exact : bool) : Async W (option WebElement) :=
  call (driver_wait (elementLocated (css selector)) (timeout this)) ;;;
  element <- call (driver_findElement (css selector)) ;;
  call (driver_wait (elementIsVisible element) (timeout this)) ;;;
  (if contentGiven content then
     match content with
     | Some (Pat r) =>
         call (driver_wait (elementTextMatches element r) (timeout this))
     | Some (Lit text) =>
         if exact
         then call (driver_wait (elementTextIs element text) (timeout this))
         else call (driver_wait (elementTextContains element text) (timeout this))
     | None => ret tt
     end
   else ret tt) ;;;
  ret (Some element).

(** The message built in its [catch] block, lines 127-131 and 432-436. *)
Definition expectElement_msg (selector : string)
    (content : option MatchTarget) (exact : bool) : string :=
  let msg := "No element with selector: '" +:+ selector +:+ "'" in
  match content with
  | Some c =>
      if contentGiven content
      then msg +:+ " and text that " +:+ _matchText c exact
      else msg
  | None => msg
  end.

(** [expectElement (selector, content, exact = false)], lines 107-135
    and 412-440. After [await this.error(msg)] the method would fall off
    its end and resolve with [undefined], here [None]. *)
Definition expectElement (rev : Revision) (this : SeleniumDriver)
    (selector : string) (content : option MatchTarget) (exact : option bool)
  : Async W (option WebElement) :=
  let exact := default false exact in
  tryCatch
    (expectElement_try this selector content exact)
    (fun e =>
       error rev this (VStr (expectElement_msg selector content exact)) ;;;
       ret None).

(** [click (selector)], lines 46-54 and 324-332. [this.error(...)] is
    called without [await]. *)
Definition click (rev : Revision) (this : SeleniumDriver) (selector : string)
  : Async W unit :=
  element <- expectElement rev this selector None None ;;
  tryCatch
    (onElement element "click" (fun el => call (element_click el)))
    (fun e =>
       detach (error rev this
         (VStr match rev with
               | Rev1 => "Unable to click selector: '" +:+ selector
               | Rev2 => "Unable to click selector: '" +:+ selector +:+ "'"
               end))).

(** [fillIn (selector, value, enter = false)], lines 56-68 and 341-353. *)
Definition fillIn (rev : Revision) (this : SeleniumDriver)
    (selector value : string) (enter : option bool) : Async W unit :=
  let enter := default false enter in
  element <- expectElement rev this selector None None ;;
  tryCatch
    (if enter
     then onElement element "sendKeys"
            (fun el => call (element_sendKeys el [KeyText value; KeyENTER]))
     else onElement element "sendKeys"
            (fun el => call (element_sendKeys el [KeyText value])))
    (fun e =>
       detach (error rev this
         (VStr ("Unable to send keys to selector: '" +:+ selector)))).

(** The callbacks of [Promise.all(options.map(async opt => ...))] in
    [select], run one after the other in the order of [options]; each
    match overwrites [option], here [option']. In the code the callbacks
    interleave at their [await]s, so when several options match, the one
    that is left in [option] can be another of the matching ones; which
    options match does not depend on the order. *)
Fixpoint scanOptions (value : string) (opts : list WebElement)
    (option' : option WebElement) : Async W (option WebElement) :=
  match opts with
  | [] => ret option'
  | opt :: rest =>
      v <- call (element_getAttribute opt "value") ;;
      hit <- (if bool_decide (v = Some value) then ret true
              else text <- call (element_getText opt) ;;
                   ret (bool_decide (text = value))) ;;
      scanOptions value rest (if hit : bool then Some opt else option')
  end.

(** The [try] block of [select], lines 75-87 and 366-378. *)
Definition select_try (this : SeleniumDriver) (element : option WebElement)
    (value : string) : Async W unit :=
  onElement element "click" (fun el => call (element_click el)) ;;;
  opts <- onElement element "findElements"
            (fun el => call (element_findElements el (tagName "option"))) ;;
  option' <- scanOptions value opts None ;;
  clicked <- onElement option' "click"
               (fun o => call (element_click o) ;;; ret o) ;;
  call (driver_wait (elementIsSelected clicked) (timeout this)).

(** [select (selector, value)], lines 70-91 and 361-382. [Rev1] passes the
    caught value to [error], [Rev2] a message; neither awaits it. *)
Definition select (rev : Revision) (this : SeleniumDriver)
    (selector value : string) : Async W unit :=
  element <- expectElement rev this selector None None ;;
  tryCatch
    (select_try this element value)
    (fun e =>
       detach (error rev this
         match rev with
         | Rev1 => e
         | Rev2 =>
             VStr ("Unable to select value/text: '" +:+ value
                     +:+ "' from selector: '" +:+ selector +:+ "'")
         end)).

(** [expectTitle (title, exact = false)], lines 93-105 and 390-402. *)
Definition expectTitle (rev : Revision) (this : SeleniumDriver)
    (title : MatchTarget) (exact : option bool) : Async W unit :=
  let exact := default false exact in
  tryCatch
    match title with
    | Pat r => call (driver_wait (titleMatches r) (timeout this))
    | Lit text =>
        if exact
        then call (driver_wait (titleIs text) (timeout this))
        else call (driver_wait (titleContains text) (timeout this))
    end
    (fun e => error rev this (VStr ("Title " +:+ _matchTextNot title exact))).

(** [expectStale (element)], lines 137-143 and 447-453. *)
Definition expectStale (rev : Revision) (this : SeleniumDriver)
    (element : WebElement) : Async W unit :=
  tryCatch
    (call (driver_wait (stalenessOf element) (timeout this)))
    (fun e =>
       selector <- elementSelector element ;;
       error rev this (VStr ("Element is not stale: '" +:+ selector +:+ "'"))).

(** The default of [exact] in [expectPage]: [true] at line 145, [false]
    at line 461. *)
Definition expectPage_exact_default (rev : Revision) : bool :=
  match rev with Rev1 => true | Rev2 => false end.

(** [expectPage (page, exact)], lines 145-157 and 461-473. *)
Definition expectPage (rev : Revision) (this : SeleniumDriver)
    (page : MatchTarget) (exact : option bool) : Async W unit :=
  let exact := default (expectPage_exact_default rev) exact in
  tryCatch
    match page with
    | Pat r => call (driver_wait (urlMatches r) (timeout this))
    | Lit path =>
        if exact
        then call (driver_wait
                     (urlIs (toString (getProp (options this) "baseUrl")
                               +:+ _pagePath path))
                     (timeout this))
        else call (driver_wait (urlContains path) (timeout this))
    end
    (fun e => error rev this (VStr ("Page " +:+ _matchTextNot page exact))).

(** [visit (page)], lines 42-44 and 315-317. *)
Definition visit (this : SeleniumDriver) (page : JsVal) : Async W unit :=
  match page with
  | VStr path =>
      call (driver_get (toString (getProp (options this) "baseUrl")
                          +:+ _pagePath path))
  | other => throw (methodTypeError "page" "substr" other)
  end.

(** [start ()], lines 33-36 and 301-304. *)
Definition start (this : SeleniumDriver) : Async W unit :=
  call driver_deleteAllCookies ;;;
  visit this (getProp (options this) "homePagePath").

(** [quit ()], lines 38-40 and 307-309. *)
Definition quit (this : SeleniumDriver) : Async W unit :=
  call driver_quit.

End Facade.

(** ** A simulated browser

    A small implementation of [Driver] on which the methods can be run: one
    static page, so a condition that does not hold now does not hold within
    any timeout. A pattern is matched as a literal substring of its source. *)

Module Sim.

Record Element := mkElement {
  ref : WebElement;
  matches_css : string;          (* the selector that locates it *)
  tag : string;
  attributes : list (string * string);
  text : string;
  visible : bool;
  interactable : bool;
  selected : bool;
  stale : bool;
  children : list WebElement
}.

Record World := mkWorld {
  url : string;
  title : string;
  elements : list Element;
  clock : Z;
  browser_log : list LogEntry;
  files : list (string * string);   (* path, content; newest first *)
  commands : list string;           (* shell commands run; newest first *)
  console : list string;            (* lines printed; newest first *)
  session_open : bool
}.

Definition contains (needle hay : string) : bool :=
  match String.index 0%nat needle hay with Some _ => true | None => false end.

Definition lookupElement (w : World) (r : WebElement) : option Element :=
  List.find (fun e => Nat.eqb (ref e) r) (elements w).

Definition locate (w : World) (by_ : By) (within : list Element) : list Element :=
  match by_ with
  | css sel => filter (fun e => String.eqb (matches_css e) sel) within
  | tagName t => filter (fun e => String.eqb (tag e) t) within
  end.

Definition elementSatisfies (w : World) (r : WebElement)
    (p : Element -> bool) : bool :=
  match lookupElement w r with
  | Some e => negb (stale e) && p e
  | None => false
  end.

Definition holds (w : World) (c : Condition) : bool :=
  match c with
  | elementLocated by_ =>
      match locate w by_ (elements w) with [] => false | _ => true end
  | elementIsVisible r => elementSatisfies w r visible
  | elementTextMatches r re => elementSatisfies w r (fun e => contains (re_source re) (text e))
  | elementTextIs r t => elementSatisfies w r (fun e => String.eqb (text e) t)
  | elementTextContains r t => elementSatisfies w r (fun e => contains t (text e))
  | elementIsSelected r => elementSatisfies w r selected
  | stalenessOf r =>
      match lookupElement w r with Some e => stale e | None => true end
  | titleMatches re => contains (re_source re) (title w)
  | titleIs t => String.eqb (title w) t
  | titleContains t => contains t (title w)
  | urlMatches re => contains (re_source re) (url w)
  | urlIs u => String.eqb (url w) u
  | urlContains u => contains u (url w)
  end.

Definition closed {A} (w : World) : Outcome A * World :=
  (Rejected (VError "NoSuchSessionError"), w).

Definition ifOpen {A} (w : World) (r : Outcome A * World) : Outcome A * World :=
  if session_open w then r else closed w.

Definition withElement {A} (w : World) (r : WebElement)
    (f : Element -> Outcome A * World) : Outcome A * World :=
  ifOpen w
    match lookupElement w r with
    | Some e =>
        if stale e then (Rejected (VError "StaleElementReferenceError"), w)
        else f e
    | None => (Rejected (VError "NoSuchElementError"), w)
    end.

Definition setUrl (u : string) (w : World) : World :=
  mkWorld u (title w) (elements w) (clock w) (browser_log w) (files w)
          (commands w) (console w) (session_open w).

Definition setOpen (b : bool) (w : World) : World :=
  mkWorld (url w) (title w) (elements w) (clock w) (browser_log w) (files w)
          (commands w) (console w) b.

Definition addFile (path content : string) (w : World) : World :=
  mkWorld (url w) (title w) (elements w) (clock w) (browser_log w)
          ((path, content) :: files w) (commands w) (console w) (session_open w).

Definition addCommand (cmd : string) (w : World) : World :=
  mkWorld (url w) (title w) (elements w) (clock w) (browser_log w) (files w)
          (cmd :: commands w) (console w) (session_open w).

Definition print (line : string) (w : World) : World :=
  mkWorld (url w) (title w) (elements w) (clock w) (browser_log w) (files w)
          (commands w) (line :: console w) (session_open w).

(** The output of a shell command: [ls -l dir] lists the files written
    under [dir], one per line; anything else prints nothing. *)
Definition shellOutput (cmd : string) (w : World) : string :=
  if String.prefix "ls -l " cmd
  then
    let dir := String.substring 6%nat (String.length cmd - 6)%nat cmd in
    String.concat ""
      (map (fun f => fst f +:+ Js.LF)
           (filter (fun f => String.prefix dir (fst f)) (rev (files w))))
  else "".

#[global] Instance driver : Driver World := {|
  driver_build := fun _ _ w => (Resolved tt, setOpen true w);
  driver_deleteAllCookies := fun w => ifOpen w (Resolved tt, w);
  driver_quit := fun w => ifOpen w (Resolved tt, setOpen false w);
  driver_get := fun u w => ifOpen w (Resolved tt, setUrl u w);
  driver_wait := fun c _ w =>
    ifOpen w
      (if holds w c then (Resolved tt, w)
       else (Rejected (VError "TimeoutError"), w));
  driver_findElement := fun by_ w =>
    ifOpen w
      match locate w by_ (elements w) with
      | e :: _ => (Resolved (ref e), w)
      | [] => (Rejected (VError "NoSuchElementError"), w)
      end;
  driver_logs_get := fun _ w => ifOpen w (Resolved (browser_log w), w);
  driver_takeScreenshot := fun w => ifOpen w (Resolved "iVBORw0KGgo=", w);
  element_click := fun r w =>
    withElement w r (fun e =>
      if interactable e then (Resolved tt, w)
      else (Rejected (VError "ElementNotInteractableError"), w));
  element_sendKeys := fun r _ w =>
    withElement w r (fun e =>
      if interactable e then (Resolved tt, w)
      else (Rejected (VError "ElementNotInteractableError"), w));
  element_findElements := fun r by_ w =>
    withElement w r (fun e =>
      (Resolved
         (map ref (locate w by_
            (filter (fun c => bool_decide (ref c ∈ children e)) (elements w)))),
       w));
  element_getAttribute := fun r name w =>
    withElement w r (fun e =>
      (Resolved (snd <$> List.find (fun kv => String.eqb (fst kv) name)
                                   (attributes e)), w));
  element_getText := fun r w => withElement w r (fun e => (Resolved (text e), w));
  element_getTagName := fun r w => withElement w r (fun e => (Resolved (tag e), w));
  Date_now := fun w => (clock w, w);
  execSync := fun cmd w => (Resolved (shellOutput cmd w), addCommand cmd w);
  fs_appendFileSync := fun path content w => (Resolved tt, addFile path content w);
  fs_writeFile := fun path data _ w => addFile path data w;
  console_log := print
|}.

(** A page with a form: a button that cannot be clicked, a heading, and
    a drop-down whose options never report themselves selected. *)
Definition page : World := {|
  url := "http://localhost:3000/dashboard/extra";
  title := "Dashboard";
  elements :=
    [ mkElement 1%nat "#save" "button" [("id", "save"); ("class", "btn primary")]
                "Save" true false false false [];
      mkElement 2%nat "h1" "h1" [] "Welcome back" true true false false [];
      mkElement 3%nat "#dropdown" "select" [("id", "dropdown")] "" true true
                false false [4%nat; 5%nat];
      mkElement 4%nat "option.a" "option" [("value", "a")] "Option A" true true
                false false [];
      mkElement 5%nat "option.b" "option" [("value", "b")] "Option B" true true
                false false [] ];
  clock := 1500000000000;
  browser_log := [mkLogEntry 1499999999000 "SEVERE" "Uncaught ReferenceError"];
  files := [];
  commands := [];
  console := [];
  session_open := true
|}.

Definition initial : State World := mkState page [].

(** The facade built with no options, in either revision. *)
Definition facade (rev : Revision) : SeleniumDriver :=
  let opts := resolveOptions documentedLevel rev None None in
  mkSeleniumDriver opts (getProp opts "timeout").

End Sim.

(** ** The reading of the slug in the documentation

    The slug as the specification words it: the message lowercased, every
    run of consecutive non-alphanumeric characters replaced by a single
    hyphen, no leading or trailing hyphens. It is compared with [slug]
    below. *)

Definition isHyphen (c : ascii) : bool := Ascii.eqb c "-"%char.

Fixpoint collapseRuns (inRun : bool) (l : list ascii) : list ascii :=
  match l with
  | [] => []
  | c :: l' =>
      if Js.isAlnum c then Js.lowerChar c :: collapseRuns false l'
      else if inRun then collapseRuns true l'
      else "-"%char :: collapseRuns true l'
  end.

Definition slugSpec (msg : string) : string :=
  Js.str (Js.dropWhileEnd isHyphen
            (Js.dropWhile isHyphen (collapseRuns false (Js.chars msg)))).

(** What [slug] makes of one character of the trimmed message. *)
Definition slugChar (c : ascii) : ascii :=
  if Js.isAlnum c then Js.lowerChar c else "-"%char.





(** The match policy of the documentation: a pattern is matched, a
    literal is compared for equality when [exact] and for containment
    otherwise. *)
Definition matchPolicy (matches : RegExp -> Condition)
    (equals includes : string -> Condition)
    (target : MatchTarget) (exact : bool) : Condition :=
  match target with
  | Pat r => matches r
  | Lit text => if exact then equals text else includes text
  end.

(** Waiting for one condition and running [onTimeout] when the wait is
    rejected. *)
Definition awaiting {W} `{Driver W} (this : SeleniumDriver) (c : Condition)
    (onTimeout : Async W unit) : Async W unit :=
  tryCatch (call (driver_wait c (timeout this))) (fun _ => onTimeout).

(** ** The copy in the rendered documentation

    The source shown by the documentation page is the documented copy with
    one more method, [scrollTo], which [click], [fillIn] and [select] await
    between resolving the element and acting on it. Its [error],
    [expectElement] and helpers are those of [Rev2]. *)

(** [driver.executeScript(script, argument)]; the argument may be
    [undefined]. *)
Class ScriptDriver (W : Type) `{Driver W} := {
  driver_executeScript : string -> option WebElement -> W -> Outcome unit * W
}.

Module Docs.
Section Methods.
Context {W : Type} `{ScriptDriver W}.

(** [scrollTo (element)], lines 202-208 of the page. *)
Definition scrollTo (this : SeleniumDriver) (element : option WebElement)
  : Async W unit :=
  tryCatch
    (call (driver_executeScript "arguments[0].scrollIntoView()" element))
    (fun e =>
       selector <- onElement element "getAttribute" elementSelector ;;
       error Rev2 this
         (VStr ("Unable to scroll to element: '" +:+ selector +:+ "'"))).

(** [click (selector)], lines 132-142 of the page. *)
Definition click (this : SeleniumDriver) (selector : string) : Async W unit :=
  element <- expectElement Rev2 this selector None None ;;
  scrollTo this element ;;;
  tryCatch
    (onElement element "click" (fun el => call (element_click el)))
    (fun e =>
       detach (error Rev2 this
         (VStr ("Unable to click selector: '" +:+ selector +:+ "'")))).

(** [fillIn (selector, value, enter = false)], lines 151-165 of the page. *)
Definition fillIn (this : SeleniumDriver) (selector value : string)
    (enter : option bool) : Async W unit :=
  let enter := default false enter in
  element <- expectElement Rev2 this selector None None ;;
  scrollTo this element ;;;
  tryCatch
    (if enter
     then onElement element "sendKeys"
            (fun el => call (element_sendKeys el [KeyText value; KeyENTER]))
     else onElement element "sendKeys"
            (fun el => call (element_sendKeys el [KeyText value])))
    (fun e =>
       detach (error Rev2 this
         (VStr ("Unable to send keys to selector: '" +:+ selector)))).

(** [select (selector, value)], lines 173-196 of the page. *)
Definition select (this : SeleniumDriver) (selector value : string)
  : Async W unit :=
  element <- expectElement Rev2 this selector None None ;;
  scrollTo this element ;;;
  tryCatch
    (select_try this element value)
    (fun e =>
       detach (error Rev2 this
         (VStr ("Unable to select value/text: '" +:+ value
                  +:+ "' from selector: '" +:+ selector +:+ "'")))).

End Methods.
End Docs.

(** The simulated browser runs a script on an element it knows, while the
    session is open. *)
#[global] Instance Sim_script : ScriptDriver Sim.World := {|
  driver_executeScript := fun _ element w =>
    match element with
    | Some r => Sim.withElement w r (fun _ => (Resolved tt, w))
    | None => Sim.ifOpen w (Rejected (VError "JavascriptError"), w)
    end
|}.

(** ** Vocabulary of the further properties *)

(** The characters a slug is made of: [a-z], [0-9] and the hyphen. *)
Definition slugSafe (c : ascii) : bool :=
  Js.isLower c || Js.isDigit c || isHyphen c.

(** Replacing every space by [d], as [s.split(' ').join(d)] does. *)
Definition spaceTo (d : ascii) (c : ascii) : ascii :=
  if Ascii.eqb c " "%char then d else c.

(** The test of the callback in [select], on what the option's [value]
    attribute and text read as. *)
Definition optionMatches (value : string) (attr : WebElement -> option string)
    (txt : WebElement -> string) (opt : WebElement) : bool :=
  bool_decide (attr opt = Some value) || bool_decide (txt opt = value).

(** A computation that leaves no rejected promise behind. *)
Definition awaitsAll {W A} (m : Async W A) : Prop :=
  forall s, unhandled (snd (m s)) = unhandled s.

(** * Properties *)

(** ** Strings *)

Lemma chars_str l : Js.chars (Js.str l) = l.
Proof. apply String.list_ascii_of_string_of_list_ascii. Qed.

Lemma dropWhile_split {A} (p : A -> bool) (l : list A) :
  exists pre, l = pre ++ Js.dropWhile p l /\ Forall (fun x => p x = true) pre.
Proof.
  induction l as [|x l IH]; simpl.
  - exists []. split; [reflexivity | constructor].
  - destruct (p x) eqn:Hx.
    + destruct IH as (pre & Hl & Hpre).
      exists (x :: pre). split.
      * simpl. f_equal. exact Hl.
      * constructor; assumption.
    + exists []. split; [reflexivity | constructor].
Qed.

Lemma dropWhile_head {A} (p : A -> bool) (l : list A) x rest :
  Js.dropWhile p l = x :: rest -> p x = false.
Proof.
  induction l as [|y l IH]; simpl; [discriminate|].
  destruct (p y) eqn:Hy; [exact IH|].
  intros [= -> _]. exact Hy.
Qed.

Lemma dropWhileEnd_split {A} (p : A -> bool) (l : list A) :
  exists suf, l = Js.dropWhileEnd p l ++ suf /\ Forall (fun x => p x = true) suf.
Proof.
  unfold Js.dropWhileEnd.
  destruct (dropWhile_split p (rev l)) as (pre & Hl & Hpre).
  exists (rev pre). split.
  - rewrite <- rev_app_distr, <- Hl, rev_involutive. reflexivity.
  - apply Forall_rev. exact Hpre.
Qed.

Lemma dropWhileEnd_last {A} (p : A -> bool) (l : list A) pre x :
  Js.dropWhileEnd p l = pre ++ [x] -> p x = false.
Proof.
  unfold Js.dropWhileEnd. intros Hl.
  apply (f_equal (@rev A)) in Hl.
  rewrite rev_involutive, rev_app_distr in Hl. simpl in Hl.
  eapply dropWhile_head. exact Hl.
Qed.

Lemma all_hyphens suf :
  Forall (fun c => isHyphen c = true) suf -> suf = repeat "-"%char (length suf).
Proof.
  induction 1 as [|c suf Hc _ IH]; simpl; [reflexivity|].
  apply Ascii.eqb_eq in Hc. subst c. f_equal. exact IH.
Qed.



Lemma splitSpaceFrom_cons cur l :
  exists p pieces, Js.splitSpaceFrom cur l = p :: pieces.
Proof.
  revert cur. induction l as [|c l IH]; intros cur; simpl.
  - eauto.
  - destruct (Ascii.eqb c " "); eauto.
Qed.


(** ** Path normalisation *)

Lemma _pagePath_cases c rest :
  _pagePath (String c rest)
  = if Ascii.eqb c "/" then String c rest else "/" +:+ String c rest.
Proof.
  unfold _pagePath. simpl.
  destruct (Ascii.eqb c "/") eqn:Hc.
  - apply Ascii.eqb_eq in Hc. subst c. reflexivity.
  - rewrite bool_decide_eq_false_2; [reflexivity|].
    intros [= ->]. rewrite Ascii.eqb_refl in Hc. discriminate.
Qed.

Lemma prefix_slash c rest :
  String.prefix "/" (String c rest) = Ascii.eqb c "/".
Proof.
  cbn [String.prefix].
  destruct (ascii_dec "/" c) as [<-|Hne].
  - destruct rest; reflexivity.
  - symmetry. apply Ascii.eqb_neq. congruence.
Qed.

(** C7: [_pagePath p] is [p] when [p] starts with a slash and
    ["/" + p] otherwise; applying it twice is the same as applying it
    once; ["foo"] and ["/foo"] both give ["/foo"]. *)
Theorem _pagePath_normalizes (p : string) :
  _pagePath p = (if String.prefix "/" p then p else "/" +:+ p)
  /\ _pagePath (_pagePath p) = _pagePath p
  /\ _pagePath "foo" = "/foo"
  /\ _pagePath "/foo" = "/foo".
Proof.
  repeat split; try reflexivity.
  - destruct p as [|c rest]; [reflexivity|].
    rewrite _pagePath_cases, prefix_slash. reflexivity.
  - destruct p as [|c rest]; [reflexivity|].
    rewrite _pagePath_cases.
    destruct (Ascii.eqb c "/") eqn:Hc.
    + rewrite _pagePath_cases, Hc. reflexivity.
    + change ("/" +:+ String c rest) with (String "/" (String c rest)).
      rewrite _pagePath_cases. reflexivity.
Qed.

(** ** The slug of a failure message *)

Lemma lowerChar_hyphenate l :
  map Js.lowerChar (map (fun c => if Js.isAlnum c then c else "-"%char) l)
  = map slugChar l.
Proof.
  rewrite map_map. apply map_ext. intros c. unfold slugChar.
  destruct (Js.isAlnum c); reflexivity.
Qed.

Lemma slug_chars msg :
  Js.chars (slug msg)
  = Js.dropWhileEnd isHyphen (map slugChar (Js.chars (Js.trim msg))).
Proof.
  unfold slug, stripTrailingHyphens, Js.toLowerCase, replaceNonAlnum.
  rewrite !chars_str, lowerChar_hyphenate. reflexivity.
Qed.

(** C5, refuted as stated: the message of a timed-out [expectTitle] has
    the run [: '] of three non-alphanumeric characters, and [slug] gives
    three hyphens for it where the claim has one; a message that starts
    with a quote gives a slug that starts with a hyphen. *)
Lemma slug_keeps_runs_and_leading_hyphens :
  slug "Title was not: 'Home'" = "title-was-not---home"
  /\ slugSpec "Title was not: 'Home'" = "title-was-not-home"
  /\ slug "Title was not: 'Home'" <> slugSpec "Title was not: 'Home'"
  /\ slug "'Home' missing" = "-home--missing"
  /\ slug "'Home' missing" <> slugSpec "'Home' missing".
Proof. vm_compute. repeat split; discriminate. Qed.

(** C5, amended: [slug msg] is the trimmed message with every
    non-alphanumeric character replaced by one hyphen (so a run of n
    gives n hyphens) and every letter lowercased, less all its trailing
    hyphens; ["Bad Thing!"] gives ["bad-thing"]. *)
Theorem slug_characterisation (msg : string) :
  (exists k,
      Js.chars (slug msg) ++ repeat "-"%char k
      = map slugChar (Js.chars (Js.trim msg)))
  /\ (forall pre, Js.chars (slug msg) <> pre ++ ["-"%char])
  /\ slug "Bad Thing!" = "bad-thing".
Proof.
  repeat split.
  - rewrite slug_chars.
    destruct (dropWhileEnd_split isHyphen (map slugChar (Js.chars (Js.trim msg))))
      as (suf & Hsplit & Hsuf).
    exists (length suf). rewrite <- (all_hyphens suf Hsuf). symmetry. exact Hsplit.
  - intros pre Hpre. rewrite slug_chars in Hpre.
    apply dropWhileEnd_last in Hpre. discriminate.
Qed.

(** ** Resolving the configuration *)

Section Options.
Variable Level : string -> bool.
Variable rev : Revision.
Variable env_BASE_URL : option string.

Let dflt := defaults rev env_BASE_URL.

Lemma defaults_logLevel : getProp dflt "logLevel" = VStr "SEVERE".
Proof. unfold dflt. destruct rev; reflexivity. Qed.

Lemma assignOptions_absent opts k :
  (forall o, opts = Some o -> o !! k = None) ->
  assignOptions dflt opts !! k = dflt !! k.
Proof.
  intros Habsent. destruct opts as [o|]; simpl; [|reflexivity].
  apply lookup_union_r. apply Habsent. reflexivity.
Qed.

Lemma assignOptions_supplied (o : gmap string JsVal) k v :
  o !! k = Some v -> assignOptions dflt (Some o) !! k = Some v.
Proof. intros Hk. simpl. apply lookup_union_Some_l. exact Hk. Qed.

(** Outside [logLevel] the resolved options are the merged ones. *)
Lemma resolveOptions_other opts k :
  k <> "logLevel" ->
  resolveOptions Level rev env_BASE_URL opts !! k = assignOptions dflt opts !! k.
Proof.
  intros Hk. unfold resolveOptions. fold dflt.
  destruct (negb _); [|reflexivity].
  apply lookup_insert_ne. congruence.
Qed.

Lemma resolveOptions_logLevel opts :
  resolveOptions Level rev env_BASE_URL opts !! "logLevel"
  = if Level (toString (getProp (assignOptions dflt opts) "logLevel"))
    then assignOptions dflt opts !! "logLevel"
    else Some (VStr "SEVERE").
Proof.
  unfold resolveOptions. fold dflt.
  destruct (Level _); simpl; [reflexivity|].
  rewrite lookup_insert_eq, defaults_logLevel. reflexivity.
Qed.

End Options.

(** What the constructor does with the resolved options. *)
Lemma newSeleniumDriver_outcome {W} `{Driver W} Level rev env opts (s : State W) :
  let resolved := resolveOptions Level rev env opts in
  fst (newSeleniumDriver Level rev env opts s)
  = match fst (driver_build (getProp resolved "browser")
                            (getProp resolved "logLevel") (world s)) with
    | Resolved _ =>
        Resolved (mkSeleniumDriver resolved (getProp resolved "timeout"))
    | Rejected e => Rejected e
    end.
Proof.
  intros resolved. unfold newSeleniumDriver, bind, call, ret. fold resolved.
  destruct (driver_build _ _ (world s)) as [[u|e] w']; simpl; [|reflexivity].
  unfold getProp, resolved.
  rewrite (resolveOptions_other Level rev env opts "timeout") by discriminate.
  reflexivity.
Qed.

(** C6, refuted as stated: ["FINE"] is not one of the six documented
    names, the library's level table knows it, and the constructor keeps
    it. *)
Lemma undocumented_level_is_kept :
  ("FINE" ∉ documentedLevels)
  /\ resolveOptions libraryLevel Rev2 None (Some (<["logLevel" := VStr "FINE"]> ∅))
       !! "logLevel"
     = Some (VStr "FINE").
Proof.
  split; [|vm_compute; reflexivity].
  unfold documentedLevels. intros Hin.
  repeat (apply elem_of_cons in Hin as [Hin|Hin]; [discriminate|]).
  apply elem_of_nil in Hin. exact Hin.
Qed.

(** C6, amended: every field the caller does not supply resolves to its
    default, and the defaults are the documented ones; a supplied
    [logLevel], whatever its type, is kept when the level table has a
    truthy entry under its name and replaced by ["SEVERE"] otherwise. *)
Theorem resolveOptions_fills_and_checks (Level : string -> bool)
    (rev : Revision) (env_BASE_URL : option string)
    (opts : option (gmap string JsVal)) :
  let resolved := resolveOptions Level rev env_BASE_URL opts in
  let dflt := defaults rev env_BASE_URL in
  (forall k d,
      dflt !! k = Some d ->
      (forall o, opts = Some o -> o !! k = None) ->
      resolved !! k = Some d)
  /\ (forall o level,
         opts = Some o ->
         o !! "logLevel" = Some level ->
         resolved !! "logLevel"
         = Some (if Level (toString level) then level else VStr "SEVERE"))
  /\ dflt !! "timeout" = Some (VNum 1000)
  /\ dflt !! "browser" = Some (VStr "chrome")
  /\ dflt !! "baseUrl"
     = Some (VStr match env_BASE_URL with
                  | Some u => if bool_decide (u = "") then "http://localhost:3000" else u
                  | None => "http://localhost:3000"
                  end)
  /\ dflt !! "logLevel" = Some (VStr "SEVERE")
  /\ dflt !! "homePagePath" = Some (VStr "/")
  /\ dflt !! "debugDirectory" = Some (VStr "tmp/selenium-debug").
Proof.
  intros resolved dflt.
  split; [|split; [|destruct rev; repeat split; reflexivity]].
  - intros k d Hd Habsent. unfold resolved.
    destruct (decide (k = "logLevel")) as [->|Hk].
    + rewrite resolveOptions_logLevel, assignOptions_absent by exact Habsent.
      fold dflt. rewrite Hd.
      pose proof (defaults_logLevel rev env_BASE_URL) as Hsevere.
      unfold getProp in Hsevere. fold dflt in Hsevere. rewrite Hd in Hsevere.
      simpl in Hsevere. subst d.
      destruct (Level _); reflexivity.
    + rewrite resolveOptions_other, assignOptions_absent by assumption.
      exact Hd.
  - intros o level -> Hsupplied. unfold resolved.
    rewrite resolveOptions_logLevel. unfold getProp.
    rewrite (assignOptions_supplied rev env_BASE_URL o _ _ Hsupplied). simpl.
    destruct (Level (toString level)); reflexivity.
Qed.

(** Witness for C6: with the library's levels, a caller who supplies a
    browser and the unknown level ["VERBOSE"] gets the default timeout and
    ["SEVERE"], and one who supplies ["FINE"] keeps it. *)
Lemma resolveOptions_fills_and_checks_witness :
  let verbose : gmap string JsVal :=
    <["browser" := VStr "firefox"]> (<["logLevel" := VStr "VERBOSE"]> ∅) in
  let fine : gmap string JsVal := <["logLevel" := VStr "FINE"]> ∅ in
  resolveOptions libraryLevel Rev2 None (Some verbose) !! "timeout"
  = Some (VNum 1000)
  /\ resolveOptions libraryLevel Rev2 None (Some verbose) !! "logLevel"
     = Some (VStr "SEVERE")
  /\ resolveOptions libraryLevel Rev1 None (Some fine) !! "logLevel"
     = Some (VStr "FINE").
Proof.
  intros verbose fine.
  destruct (resolveOptions_fills_and_checks libraryLevel Rev2 None (Some verbose))
    as (Hfill & Hcheck & _).
  destruct (resolveOptions_fills_and_checks libraryLevel Rev1 None (Some fine))
    as (_ & Hcheck' & _).
  split; [|split].
  - apply Hfill; [reflexivity|]. intros o [= <-]. reflexivity.
  - apply (Hcheck verbose (VStr "VERBOSE")); reflexivity.
  - apply (Hcheck' fine (VStr "FINE")); reflexivity.
Defined.

(** C9, refuted as stated: with [logLevel] explicitly [undefined] the
    resolved [logLevel] is the default ["SEVERE"], not [undefined]. *)
Lemma undefined_logLevel_is_replaced :
  ~ (forall (o : gmap string JsVal) (k : string),
        o !! k = Some VUndefined ->
        resolveOptions documentedLevel Rev2 None (Some o) !! k = Some VUndefined).
Proof.
  intros Hclaim.
  specialize (Hclaim (<["logLevel" := VUndefined]> ∅) "logLevel" eq_refl).
  vm_compute in Hclaim. discriminate.
Qed.

(** C9, amended: a key the caller's object has keeps the caller's value,
    [undefined] included, and the default is not used; the exception is
    [logLevel], which keeps the caller's value only when the level table
    knows it and is ["SEVERE"] otherwise, as for [undefined]. *)
Theorem supplied_keys_override_defaults (Level : string -> bool)
    (rev : Revision) (env_BASE_URL : option string)
    (o : gmap string JsVal) (k : string) (v : JsVal)
    (Hsupplied : o !! k = Some v) :
  let resolved := resolveOptions Level rev env_BASE_URL (Some o) in
  (k <> "logLevel" -> resolved !! k = Some v)
  /\ (k = "logLevel" ->
      resolved !! k = Some (if Level (toString v) then v else VStr "SEVERE")).
Proof.
  intros resolved. unfold resolved. split.
  - intros Hk. rewrite resolveOptions_other by exact Hk.
    apply assignOptions_supplied. exact Hsupplied.
  - intros ->. rewrite resolveOptions_logLevel. unfold getProp.
    rewrite (assignOptions_supplied rev env_BASE_URL o _ _ Hsupplied). simpl.
    destruct (Level (toString v)); reflexivity.
Qed.

(** Witness for C9: [{timeout: undefined, logLevel: undefined}]. *)
Lemma supplied_keys_override_defaults_witness :
  let o : gmap string JsVal :=
    <["timeout" := VUndefined]> (<["logLevel" := VUndefined]> ∅) in
  let resolved := resolveOptions documentedLevel Rev2 None (Some o) in
  resolved !! "timeout" = Some VUndefined
  /\ resolved !! "logLevel" = Some (VStr "SEVERE").
Proof.
  intros o resolved. split.
  - apply (supplied_keys_override_defaults documentedLevel Rev2 None o
             "timeout" VUndefined eq_refl).
    discriminate.
  - apply (supplied_keys_override_defaults documentedLevel Rev2 None o
             "logLevel" VUndefined eq_refl).
    reflexivity.
Defined.

(** ** The element selector *)

Lemma append_assoc a b c : (a +:+ b) +:+ c = a +:+ b +:+ c.
Proof.
  induction a as [|x a IH]; [reflexivity|].
  change (String x (a +:+ b) +:+ c = String x (a +:+ b +:+ c)).
  change (String x ((a +:+ b) +:+ c) = String x (a +:+ b +:+ c)).
  f_equal. exact IH.
Qed.



(** A doubled space leaves an empty piece between two dots, as
    [split(' ')] does. *)
Lemma selectorText_doubled_space :
  selectorText "div" None (Some "a  b") = "div.a..b".
Proof. reflexivity. Qed.

(** ** The unified failure path *)

(** Unfolds the promise combinators. *)
Ltac unfold_async := unfold bind, call, callTotal, effect, throw, ret.

(** Closes a goal [exists e s', (Rejected _, _) = (Rejected e, s')]. *)
Ltac rejected_here := eexists _, _; reflexivity.

(** Replays collaborator calls whose results are given by hypotheses. *)
Ltac replay H := rewrite H; simpl.

Section FailurePath.
Context {W : Type} `{Driver W}.

Lemma tryCatch_rejected {A} (body : Async W A) handler s e s1 :
  body s = (Rejected e, s1) -> tryCatch body handler s = handler e s1.
Proof. intros Hbody. unfold tryCatch. rewrite Hbody. reflexivity. Qed.

Lemma call_rejected {A} (op : W -> Outcome A * W) (s : State W) e w1 :
  op (world s) = (Rejected e, w1) ->
  call op s = (Rejected e, mkState w1 (unhandled s)).
Proof. intros Hop. unfold call. rewrite Hop. reflexivity. Qed.

(** [error] never completes normally: whichever of its steps fails, or
    none, it ends in a rejection. *)
Lemma error_rejects rev this msg (s : State W) :
  exists e s', error rev this msg s = (Rejected e, s').
Proof.
  unfold error. unfold_async.
  destruct (Date_now (world s)) as [now w1]. simpl.
  destruct msg; try rejected_here.
  destruct (driver_logs_get _ _) as [[logs|e] w2]; simpl; [|rejected_here].
  destruct (execSync _ _) as [[out|e] w3]; simpl; [|rejected_here].
  destruct (fs_appendFileSync _ _ _) as [[u|e] w4]; simpl; [|rejected_here].
  destruct (driver_takeScreenshot _) as [[shot|e] w5]; simpl; [|rejected_here].
  destruct rev; simpl;
    destruct (execSync _ _) as [[listing|e] w6]; simpl; rejected_here.
Qed.

(** A handler that awaits [error] makes the whole method reject. *)
Lemma awaited_error_rejects {A} rev this msg (rest : Async W A) (s : State W) :
  exists e s', (error rev this msg ;;; rest) s = (Rejected e, s').
Proof.
  destruct (error_rejects rev this msg s) as (e & s' & Herr).
  exists e, s'. unfold bind. rewrite Herr. reflexivity.
Qed.

(** A handler that calls [error] without awaiting it lets the method
    complete normally. *)
Lemma detached_error_resolves rev this msg (s : State W) :
  exists e s',
    error rev this msg s = (Rejected e, s')
    /\ detach (error rev this msg) s
       = (Resolved tt, mkState (world s') (e :: unhandled s')).
Proof.
  destruct (error_rejects rev this msg s) as (e & s' & Herr).
  exists e, s'. split; [exact Herr|].
  unfold detach. rewrite Herr. reflexivity.
Qed.

(** What the earlier copy of [error] does when its steps succeed: the
    note and the listing go to the console and the thrown message is
    [msg] unchanged. *)
Lemma error_Rev1_prints_note this (msg : string) (s : State W)
    now w1 logs w2 out w3 w4 shot w5 listing w6 :
  let dirName :=
    toString (getProp (options this) "debugDirectory") +:+ "/"
      +:+ pretty now +:+ "-" +:+ slug msg in
  Date_now (world s) = (now, w1) ->
  driver_logs_get "browser" w1 = (Resolved logs, w2) ->
  execSync ("mkdir -p " +:+ dirName) w2 = (Resolved out, w3) ->
  fs_appendFileSync (dirName +:+ "/browser.log")
                    (Js.join Js.LF (map logLine logs)) w3 = (Resolved tt, w4) ->
  driver_takeScreenshot w4 = (Resolved shot, w5) ->
  execSync ("ls -l " +:+ dirName)
           (console_log ("Debug files created in: " +:+ dirName)
              (fs_writeFile (dirName +:+ "/screenshot.png") shot "base64" w5))
  = (Resolved listing, w6) ->
  error Rev1 this (VStr msg) s
  = (Rejected (VError msg), mkState (console_log listing w6) (unhandled s)).
Proof.
  intros dirName Hnow Hlogs Hmkdir Happend Hshot Hls.
  unfold error. unfold_async.
  replay Hnow. fold dirName.
  replay Hlogs. replay Hmkdir. replay Happend. replay Hshot. replay Hls.
  reflexivity.
Qed.

End FailurePath.

(** C2, refuted as stated: the earlier copy raises the message as it
    was given; the note and the listing are on the console instead. *)
Lemma error_Rev1_message_is_not_augmented :
  let run := error Rev1 (Sim.facade Rev1) (VStr "Bad Thing!") Sim.initial in
  let dir := "tmp/selenium-debug/1500000000000-bad-thing" in
  fst run = Rejected (VError "Bad Thing!")
  /\ Sim.console (world (snd run))
     = [ dir +:+ "/browser.log" +:+ Js.LF +:+ dir +:+ "/screenshot.png" +:+ Js.LF;
         "Debug files created in: " +:+ dir ].
Proof. vm_compute. split; reflexivity. Qed.

(** C2, amended: when the steps of [error] themselves succeed (reading
    the clock and the browser log, creating the directory, writing the log
    file, taking the screenshot, listing the directory), the documented
    copy raises an error whose message is [msg] followed by the note that
    names the debug directory and by the listing of that directory; the
    earlier copy prints the note and the listing and raises an error whose
    message is [msg] unchanged. *)
Theorem error_message_in_each_copy {W} `{Driver W} (rev : Revision)
    (this : SeleniumDriver) (msg : string) (s : State W)
    (now : Z) (logs : list LogEntry) (out shot listing : string)
    (w1 w2 w3 w4 w5 w6 : W) :
  let dirName :=
    toString (getProp (options this) "debugDirectory") +:+ "/"
      +:+ pretty now +:+ "-" +:+ slug msg in
  let written := fs_writeFile (dirName +:+ "/screenshot.png") shot "base64" w5 in
  Date_now (world s) = (now, w1) ->
  driver_logs_get "browser" w1 = (Resolved logs, w2) ->
  execSync ("mkdir -p " +:+ dirName) w2 = (Resolved out, w3) ->
  fs_appendFileSync (dirName +:+ "/browser.log")
                    (Js.join Js.LF (map logLine logs)) w3 = (Resolved tt, w4) ->
  driver_takeScreenshot w4 = (Resolved shot, w5) ->
  execSync ("ls -l " +:+ dirName)
           match rev with
           | Rev1 => console_log ("Debug files created in: " +:+ dirName) written
           | Rev2 => written
           end
  = (Resolved listing, w6) ->
  error rev this (VStr msg) s
  = match rev with
    | Rev1 =>
        (Rejected (VError msg), mkState (console_log listing w6) (unhandled s))
    | Rev2 =>
        (Rejected
           (VError (msg +:+ Js.LF +:+ Js.LF +:+ "Debug files created in: "
                        +:+ dirName +:+ Js.LF +:+ listing)),
         mkState w6 (unhandled s))
    end.
Proof.
  intros dirName written Hnow Hlogs Hmkdir Happend Hshot Hls.
  subst written.
  destruct rev; unfold error; unfold_async;
    replay Hnow; fold dirName;
    replay Hlogs; replay Hmkdir; replay Happend; replay Hshot; replay Hls.
  - reflexivity.
  - unfold debugNote. rewrite !append_assoc. reflexivity.
Qed.

(** Witness for C2: [error("Bad Thing!")] on the simulated page, in the
    documented copy. *)
Lemma error_message_in_each_copy_witness :
  let dir := "tmp/selenium-debug/1500000000000-bad-thing" in
  fst (error Rev2 (Sim.facade Rev2) (VStr "Bad Thing!") Sim.initial)
  = Rejected
      (VError ("Bad Thing!" +:+ Js.LF +:+ Js.LF
                 +:+ "Debug files created in: " +:+ dir +:+ Js.LF
                 +:+ dir +:+ "/browser.log" +:+ Js.LF
                 +:+ dir +:+ "/screenshot.png" +:+ Js.LF)).
Proof.
  intros dir.
  etransitivity.
  - apply f_equal.
    eapply (error_message_in_each_copy Rev2 (Sim.facade Rev2) "Bad Thing!"
              Sim.initial); vm_compute; reflexivity.
  - vm_compute. reflexivity.
Defined.

(** Outside the hypotheses of C2: once the session is closed the log
    fetch of [error] throws, and that error is the one raised. *)
Lemma error_with_closed_session :
  fst (error Rev2 (Sim.facade Rev2) (VStr "Bad Thing!")
             (mkState (Sim.setOpen false Sim.page) []))
  = Rejected (VError "NoSuchSessionError").
Proof. vm_compute. reflexivity. Qed.

(** ** Waits that time out *)

Section Waits.
Context {W : Type} `{Driver W}.
Variable rev : Revision.
Variable this : SeleniumDriver.

Lemma awaiting_timeout c onTimeout (s : State W) e w1 :
  driver_wait c (timeout this) (world s) = (Rejected e, w1) ->
  awaiting this c onTimeout s = onTimeout (mkState w1 (unhandled s)).
Proof.
  intros Hwait. unfold awaiting.
  erewrite tryCatch_rejected; [reflexivity|].
  apply call_rejected. exact Hwait.
Qed.

(** A wait whose handler awaits [error] resolves exactly when the
    driver's wait does. *)
Lemma awaiting_error_resolved c msg (s : State W) :
  isResolved (fst (awaiting this c (error rev this msg) s))
  = isResolved (fst (driver_wait c (timeout this) (world s))).
Proof.
  unfold awaiting, tryCatch, call.
  destruct (driver_wait c (timeout this) (world s)) as [[u|e] w1]; simpl;
    [reflexivity|].
  destruct (error_rejects rev this msg (mkState w1 (unhandled s)))
    as (e' & s' & ->).
  reflexivity.
Qed.

Lemma expectTitle_policy title exact :
  expectTitle rev this title exact
  = awaiting this
      (matchPolicy titleMatches titleIs titleContains title (default false exact))
      (error rev this
         (VStr ("Title " +:+ _matchTextNot title (default false exact)))).
Proof. destruct title, exact as [[|]|]; reflexivity. Qed.

Lemma expectPage_policy page exact :
  let exact' := default (expectPage_exact_default rev) exact in
  expectPage rev this page exact
  = awaiting this
      (matchPolicy urlMatches
         (fun path => urlIs (toString (getProp (options this) "baseUrl")
                               +:+ _pagePath path))
         urlContains page exact')
      (error rev this (VStr ("Page " +:+ _matchTextNot page exact'))).
Proof. destruct page, exact as [[|]|], rev; reflexivity. Qed.

(** [expectTitle]: a timed-out wait is raised through [error]. *)
Lemma expectTitle_timeout_raises title exact (s : State W) e w1 :
  driver_wait
    (matchPolicy titleMatches titleIs titleContains title (default false exact))
    (timeout this) (world s) = (Rejected e, w1) ->
  expectTitle rev this title exact s
  = error rev this (VStr ("Title " +:+ _matchTextNot title (default false exact)))
          (mkState w1 (unhandled s))
  /\ isRejected (fst (expectTitle rev this title exact s)) = true.
Proof.
  intros Hwait. rewrite expectTitle_policy.
  rewrite (awaiting_timeout _ _ _ _ _ Hwait). split; [reflexivity|].
  destruct (error_rejects rev this
              (VStr ("Title " +:+ _matchTextNot title (default false exact)))
              (mkState w1 (unhandled s))) as (e' & s' & ->).
  reflexivity.
Qed.

(** [expectPage]: likewise. *)
Lemma expectPage_timeout_raises page exact (s : State W) e w1 :
  let exact' := default (expectPage_exact_default rev) exact in
  driver_wait
    (matchPolicy urlMatches
       (fun path => urlIs (toString (getProp (options this) "baseUrl")
                             +:+ _pagePath path))
       urlContains page exact')
    (timeout this) (world s) = (Rejected e, w1) ->
  expectPage rev this page exact s
  = error rev this (VStr ("Page " +:+ _matchTextNot page exact'))
          (mkState w1 (unhandled s))
  /\ isRejected (fst (expectPage rev this page exact s)) = true.
Proof.
  intros exact' Hwait. rewrite expectPage_policy. fold exact'.
  rewrite (awaiting_timeout _ _ _ _ _ Hwait). split; [reflexivity|].
  destruct (error_rejects rev this (VStr ("Page " +:+ _matchTextNot page exact'))
              (mkState w1 (unhandled s))) as (e' & s' & ->).
  reflexivity.
Qed.

(** [expectStale]: a timed-out wait always ends in a rejection, through
    [error] when the selector of the element can be read. *)
Lemma expectStale_timeout_raises element (s : State W) e w1 :
  driver_wait (stalenessOf element) (timeout this) (world s) = (Rejected e, w1) ->
  isRejected (fst (expectStale rev this element s)) = true.
Proof.
  intros Hwait. unfold expectStale.
  erewrite tryCatch_rejected by (apply call_rejected; exact Hwait).
  unfold bind.
  destruct (elementSelector element _) as [[selector|e'] s1]; [|reflexivity].
  destruct (error_rejects rev this
              (VStr ("Element is not stale: '" +:+ selector +:+ "'")) s1)
    as (e'' & s' & ->).
  reflexivity.
Qed.

(** [expectElement]: whatever makes its [try] block fail, one of the waits
    timing out included, is raised through [error]. *)
Lemma expectElement_failure_raises selector content exact (s : State W) e s1 :
  expectElement_try this selector content (default false exact) s
  = (Rejected e, s1) ->
  expectElement rev this selector content exact s
  = (error rev this
       (VStr (expectElement_msg selector content (default false exact))) ;;;
     ret None) s1
  /\ isRejected (fst (expectElement rev this selector content exact s)) = true.
Proof.
  intros Htry. unfold expectElement.
  rewrite (tryCatch_rejected _ _ _ _ _ Htry). split; [reflexivity|].
  destruct (awaited_error_rejects rev this
              (VStr (expectElement_msg selector content (default false exact)))
              (ret (None : option WebElement)) s1) as (e' & s' & ->).
  reflexivity.
Qed.

Lemma expectElement_located_timeout selector content exact (s : State W) e w1 :
  driver_wait (elementLocated (css selector)) (timeout this) (world s)
  = (Rejected e, w1) ->
  isRejected (fst (expectElement rev this selector content exact s)) = true.
Proof.
  intros Hwait.
  eapply expectElement_failure_raises.
  unfold expectElement_try, bind.
  rewrite (call_rejected _ _ _ _ Hwait). reflexivity.
Qed.

(** A handler that does not await [error] swallows the failure. *)
Lemma tryCatch_detached_resolves (body : Async W unit) (msg : JsVal -> JsVal)
    (s : State W) :
  exists s', tryCatch body (fun e => detach (error rev this (msg e))) s
             = (Resolved tt, s').
Proof.
  unfold tryCatch.
  destruct (body s) as [[[]|e] s1]; [eauto|].
  destruct (detached_error_resolves rev this (msg e) s1) as (e' & s' & _ & ->).
  eauto.
Qed.

(** Once the element is resolved, [click], [fillIn] and [select] complete
    normally whatever the action does. *)
Lemma click_resolves_after_element selector (s : State W) element s1 :
  expectElement rev this selector None None s = (Resolved element, s1) ->
  exists s', click rev this selector s = (Resolved tt, s').
Proof.
  intros Hel. unfold click, bind. rewrite Hel.
  apply (tryCatch_detached_resolves _ (fun _ => _)).
Qed.

Lemma fillIn_resolves_after_element selector value enter (s : State W) element s1 :
  expectElement rev this selector None None s = (Resolved element, s1) ->
  exists s', fillIn rev this selector value enter s = (Resolved tt, s').
Proof.
  intros Hel. unfold fillIn, bind. rewrite Hel.
  apply (tryCatch_detached_resolves _ (fun _ => _)).
Qed.

Lemma select_resolves_after_element selector value (s : State W) element s1 :
  expectElement rev this selector None None s = (Resolved element, s1) ->
  exists s', select rev this selector value s = (Resolved tt, s').
Proof.
  intros Hel. unfold select, bind. rewrite Hel.
  apply (tryCatch_detached_resolves _
           (fun e => match rev with Rev1 => e | Rev2 => _ end)).
Qed.

End Waits.

(** ** expectPage *)

(** C4, refuted as stated: in the earlier copy a call without [exact]
    compares the whole URL. The URL of the simulated page contains
    ["/dashboard"], and [expectPage("/dashboard")] is rejected all the
    same. *)
Lemma expectPage_Rev1_default_is_exact :
  fst (driver_wait (urlContains "/dashboard") (timeout (Sim.facade Rev1)) Sim.page)
  = Resolved tt
  /\ isRejected (fst (expectPage Rev1 (Sim.facade Rev1) (Lit "/dashboard") None
                                 Sim.initial)) = true.
Proof. vm_compute. split; reflexivity. Qed.

(** C4, amended: [exact] defaults to [false] in the documented copy and
    to [true] in the earlier one. In both, for a literal path and [exact]
    the method resolves exactly when the driver's wait for the URL to be
    [baseUrl + _pagePath(path)] does, so the URL
    [baseUrl + "/dashboard/extra"], which differs from the awaited one, does
    not satisfy [expectPage("/dashboard", true)]; with [exact] false it
    waits for the URL to contain [path]; for a pattern it waits for a
    match. *)
Theorem expectPage_policy_in_each_copy {W} `{Driver W} (this : SeleniumDriver)
    (s : State W) :
  let baseUrl := toString (getProp (options this) "baseUrl") in
  (forall page,
      expectPage (W := W) Rev2 this page None = expectPage Rev2 this page (Some false))
  /\ (forall page,
         expectPage (W := W) Rev1 this page None
         = expectPage Rev1 this page (Some true))
  /\ (forall rev path,
         isResolved (fst (expectPage rev this (Lit path) (Some true) s))
         = isResolved (fst (driver_wait (urlIs (baseUrl +:+ _pagePath path))
                                        (timeout this) (world s))))
  /\ (forall rev path,
         isResolved (fst (expectPage rev this (Lit path) (Some false) s))
         = isResolved (fst (driver_wait (urlContains path) (timeout this) (world s))))
  /\ (forall rev r exact,
         isResolved (fst (expectPage rev this (Pat r) exact s))
         = isResolved (fst (driver_wait (urlMatches r) (timeout this) (world s))))
  /\ baseUrl +:+ "/dashboard/extra" <> baseUrl +:+ _pagePath "/dashboard".
Proof.
  intros baseUrl. repeat split.
  - intros rev path. rewrite expectPage_policy. apply awaiting_error_resolved.
  - intros rev path. rewrite expectPage_policy. apply awaiting_error_resolved.
  - intros rev r exact. rewrite expectPage_policy. apply awaiting_error_resolved.
  - intros Heq. apply (inj (String.app baseUrl)) in Heq. discriminate.
Qed.

(** The scenario of C4 on the simulated page, whose URL is
    [http://localhost:3000/dashboard/extra]; the earlier copy differs in
    the default of [exact]. *)
Lemma expectPage_dashboard_scenario :
  isRejected (fst (expectPage Rev2 (Sim.facade Rev2) (Lit "/dashboard") (Some true)
                              Sim.initial)) = true
  /\ fst (expectPage Rev2 (Sim.facade Rev2) (Lit "/dashboard") None Sim.initial)
     = Resolved tt
  /\ fst (expectPage Rev2 (Sim.facade Rev2) (Lit "/dashboard/extra") (Some true)
                     Sim.initial)
     = Resolved tt
  /\ isRejected (fst (expectPage Rev1 (Sim.facade Rev1) (Lit "/dashboard") None
                                 Sim.initial)) = true.
Proof. vm_compute. repeat split. Qed.

(** ** expectElement with empty content *)

(** C10: with the empty string as content, and any [exact],
    [expectElement] is the same computation as with no content: the two
    waits for the element and no wait for its text, and on failure the
    message that names the selector only. *)
Theorem expectElement_empty_content {W} `{Driver W} (rev : Revision)
    (this : SeleniumDriver) (selector : string) (exact : option bool) :
  expectElement rev this selector (Some (Lit "")) exact
  = expectElement rev this selector None None
  /\ expectElement rev this selector (Some (Lit "")) exact
     = tryCatch
         (call (driver_wait (elementLocated (css selector)) (timeout this)) ;;;
          element <- call (driver_findElement (css selector)) ;;
          call (driver_wait (elementIsVisible element) (timeout this)) ;;;
          ret tt ;;;
          ret (Some element))
         (fun _ =>
            error rev this (VStr ("No element with selector: '" +:+ selector +:+ "'")) ;;;
            ret None).
Proof. split; reflexivity. Qed.

(** ** Failures that are not raised *)

(** C1, the failing case: on the simulated page the option "Option B" is
    found and clicked but never reports itself selected, so the last wait of
    [select] times out; [select] completes normally in both copies, and the
    error built by [error] is left in a promise nobody awaits. The same
    time-out in [expectTitle], which awaits [error], is raised. *)
Theorem select_timeout_is_not_raised :
  let dir :=
    "tmp/selenium-debug/1500000000000-unable-to-select-value-text---option-b--from-selector----dropdown" in
  let run := select Rev2 (Sim.facade Rev2) "#dropdown" "Option B" Sim.initial in
  fst (driver_wait (elementIsSelected 5%nat) (timeout (Sim.facade Rev2)) Sim.page)
  = Rejected (VError "TimeoutError")
  /\ fst run = Resolved tt
  /\ unhandled (snd run)
     = [VError ("Unable to select value/text: 'Option B' from selector: '#dropdown'"
                  +:+ debugNote dir
                  +:+ dir +:+ "/browser.log" +:+ Js.LF
                  +:+ dir +:+ "/screenshot.png" +:+ Js.LF)]
  /\ fst (select Rev1 (Sim.facade Rev1) "#dropdown" "Option B" Sim.initial)
     = Resolved tt
  /\ isRejected (fst (expectTitle Rev2 (Sim.facade Rev2) (Lit "Home") None
                                  Sim.initial)) = true.
Proof. vm_compute. repeat split. Qed.

(** C3, the failing case: on the simulated page the button [#save] is
    located and visible but cannot be clicked; [click] completes normally
    and the error with the message of the action is left in a promise
    nobody awaits. The same holds for [fillIn], and for [select] when no
    option matches. *)
Theorem action_failure_is_not_raised :
  let dir := "tmp/selenium-debug/1500000000000-unable-to-click-selector----save" in
  let run := click Rev2 (Sim.facade Rev2) "#save" Sim.initial in
  fst (element_click 1%nat Sim.page) = Rejected (VError "ElementNotInteractableError")
  /\ fst run = Resolved tt
  /\ unhandled (snd run)
     = [VError ("Unable to click selector: '#save'"
                  +:+ debugNote dir
                  +:+ dir +:+ "/browser.log" +:+ Js.LF
                  +:+ dir +:+ "/screenshot.png" +:+ Js.LF)]
  /\ fst (fillIn Rev2 (Sim.facade Rev2) "#save" "text" None Sim.initial) = Resolved tt
  /\ fst (select Rev2 (Sim.facade Rev2) "#dropdown" "Option C" Sim.initial)
     = Resolved tt
  /\ length (unhandled (snd (select Rev2 (Sim.facade Rev2) "#dropdown" "Option C"
                                    Sim.initial))) = 1%nat.
Proof. vm_compute. repeat split. Qed.

(** * Further properties *)

(** ** The slug is safe to put in a shell command *)

Lemma str_chars s : Js.str (Js.chars s) = s.
Proof. apply String.string_of_list_ascii_of_string. Qed.

Lemma slugChar_safe c : slugSafe (slugChar c) = true.
Proof. destruct c as [[] [] [] [] [] [] [] []]; reflexivity. Qed.

Lemma slugSafe_fixed c : slugSafe c = true -> slugChar c = c.
Proof. destruct c as [[] [] [] [] [] [] [] []]; (reflexivity || discriminate). Qed.

Lemma slugSafe_not_space c : slugSafe c = true -> Js.isWhiteSpace c = false.
Proof. destruct c as [[] [] [] [] [] [] [] []]; (reflexivity || discriminate). Qed.

Lemma dropWhile_none {A} (p : A -> bool) l :
  Forall (fun x => p x = false) l -> Js.dropWhile p l = l.
Proof. destruct 1 as [|x l Hx _]; simpl; [reflexivity|]. rewrite Hx. reflexivity. Qed.

Lemma dropWhile_all {A} (p : A -> bool) l :
  Forall (fun x => p x = true) l -> Js.dropWhile p l = [].
Proof. induction 1 as [|x l Hx _ IH]; simpl; [reflexivity|]. rewrite Hx. exact IH. Qed.

Lemma dropWhile_idempotent {A} (p : A -> bool) l :
  Js.dropWhile p (Js.dropWhile p l) = Js.dropWhile p l.
Proof.
  destruct (Js.dropWhile p l) as [|x rest] eqn:Hl; [reflexivity|].
  apply dropWhile_head in Hl. simpl. rewrite Hl. reflexivity.
Qed.

Lemma dropWhileEnd_none {A} (p : A -> bool) l :
  Forall (fun x => p x = false) l -> Js.dropWhileEnd p l = l.
Proof.
  intros Hl. unfold Js.dropWhileEnd.
  rewrite dropWhile_none by (apply Forall_rev; exact Hl).
  apply rev_involutive.
Qed.

Lemma dropWhileEnd_all {A} (p : A -> bool) l :
  Forall (fun x => p x = true) l -> Js.dropWhileEnd p l = [].
Proof.
  intros Hl. unfold Js.dropWhileEnd.
  rewrite dropWhile_all by (apply Forall_rev; exact Hl). reflexivity.
Qed.

Lemma dropWhileEnd_idempotent {A} (p : A -> bool) l :
  Js.dropWhileEnd p (Js.dropWhileEnd p l) = Js.dropWhileEnd p l.
Proof.
  unfold Js.dropWhileEnd. rewrite rev_involutive, dropWhile_idempotent.
  reflexivity.
Qed.

Lemma dropWhile_Forall {A} (P : A -> Prop) (p : A -> bool) l :
  Forall P l -> Forall P (Js.dropWhile p l).
Proof.
  intros Hl. destruct (dropWhile_split p l) as (pre & Heq & _).
  rewrite Heq in Hl. apply Forall_app in Hl. apply Hl.
Qed.

Lemma dropWhileEnd_Forall {A} (P : A -> Prop) (p : A -> bool) l :
  Forall P l -> Forall P (Js.dropWhileEnd p l).
Proof.
  intros Hl. destruct (dropWhileEnd_split p l) as (suf & Heq & _).
  rewrite Heq in Hl. apply Forall_app in Hl. apply Hl.
Qed.

Lemma trim_chars_Forall (P : ascii -> Prop) msg :
  Forall P (Js.chars msg) -> Forall P (Js.chars (Js.trim msg)).
Proof.
  intros Hmsg. unfold Js.trim. rewrite chars_str.
  apply dropWhileEnd_Forall, dropWhile_Forall, Hmsg.
Qed.

Lemma slug_chars_safe msg :
  Forall (fun c => slugSafe c = true) (Js.chars (slug msg)).
Proof.
  rewrite slug_chars. apply dropWhileEnd_Forall.
  apply Forall_forall. intros c Hc.
  apply list_elem_of_In, in_map_iff in Hc. destruct Hc as (c0 & <- & _).
  apply slugChar_safe.
Qed.

(** X1: whatever the message, its slug consists of lower-case letters,
    digits and hyphens only, so the directory name built from it adds no
    shell metacharacter to the [mkdir] and [ls] commands; and the slug is
    never longer than the message. *)
Theorem slug_alphabet (msg : string) :
  Forall (fun c => slugSafe c = true) (Js.chars (slug msg))
  /\ (length (Js.chars (slug msg)) <= length (Js.chars msg))%nat.
Proof.
  split; [apply slug_chars_safe|].
  rewrite slug_chars. unfold Js.trim. rewrite chars_str.
  destruct (dropWhileEnd_split isHyphen (map slugChar (Js.chars (Js.trim msg))))
    as (suf & Hsplit & _).
  unfold Js.trim in Hsplit. rewrite chars_str in Hsplit.
  apply (f_equal (@length ascii)) in Hsplit.
  rewrite length_app, length_map in Hsplit.
  destruct (dropWhileEnd_split Js.isWhiteSpace
              (Js.dropWhile Js.isWhiteSpace (Js.chars msg))) as (suf' & Hend & _).
  destruct (dropWhile_split Js.isWhiteSpace (Js.chars msg)) as (pre & Hstart & _).
  apply (f_equal (@length ascii)) in Hend, Hstart.
  rewrite length_app in Hend, Hstart. lia.
Qed.

(** X2: a slug is its own slug: slugging again changes nothing. *)
Theorem slug_idempotent (msg : string) : slug (slug msg) = slug msg.
Proof.
  cut (Js.chars (slug (slug msg)) = Js.chars (slug msg)).
  { intros Hchars. apply (f_equal Js.str) in Hchars.
    rewrite !str_chars in Hchars. exact Hchars. }
  pose proof (slug_chars_safe msg) as Hsafe.
  assert (Htrim : Js.chars (Js.trim (slug msg)) = Js.chars (slug msg)).
  { unfold Js.trim. rewrite chars_str.
    assert (Hns : Forall (fun c => Js.isWhiteSpace c = false) (Js.chars (slug msg))).
    { eapply Forall_impl; [exact Hsafe|]. intros c. apply slugSafe_not_space. }
    rewrite (dropWhile_none _ _ Hns). apply dropWhileEnd_none. exact Hns. }
  rewrite (slug_chars (slug msg)), Htrim.
  assert (Hfix : map slugChar (Js.chars (slug msg)) = Js.chars (slug msg)).
  { clear Htrim. induction Hsafe as [|c l Hc _ IH]; simpl; [reflexivity|].
    rewrite (slugSafe_fixed c Hc), IH. reflexivity. }
  rewrite Hfix, slug_chars. apply dropWhileEnd_idempotent.
Qed.

(** X3: a message without any letter or digit has the empty slug, so its
    directory is named by the timestamp and a hyphen alone. *)
Theorem slug_without_alnum_is_empty (msg : string)
    (Hnone : Forall (fun c => Js.isAlnum c = false) (Js.chars msg)) :
  slug msg = "".
Proof.
  cut (Js.chars (slug msg) = []).
  { intros Hchars. apply (f_equal Js.str) in Hchars.
    rewrite str_chars in Hchars. exact Hchars. }
  rewrite slug_chars. apply dropWhileEnd_all.
  apply trim_chars_Forall in Hnone.
  induction Hnone as [|c l Hc _ IH]; simpl; constructor; [|exact IH].
  unfold slugChar. rewrite Hc. reflexivity.
Qed.

Lemma slug_without_alnum_is_empty_witness : slug " ?! (...) " = "".
Proof.
  apply slug_without_alnum_is_empty. vm_compute.
  repeat constructor.
Defined.

(** ** Splitting at spaces and joining *)

Lemma chars_append a b : Js.chars (a +:+ b) = Js.chars a ++ Js.chars b.
Proof.
  induction a as [|x a IH]; [reflexivity|].
  change (x :: Js.chars (a +:+ b) = x :: (Js.chars a ++ Js.chars b)).
  f_equal. exact IH.
Qed.

Lemma join_splitSpaceFrom d cur l :
  Js.chars (Js.join (String d "") (Js.splitSpaceFrom cur l))
  = rev cur ++ map (spaceTo d) l.
Proof.
  revert cur. induction l as [|c l IH]; intros cur.
  - simpl. rewrite chars_str, app_nil_r. reflexivity.
  - cbn [Js.splitSpaceFrom map]. unfold spaceTo at 1.
    destruct (Ascii.eqb c " ") eqn:Hc.
    + destruct (splitSpaceFrom_cons [] l) as (p & pieces & Hpieces).
      specialize (IH []). rewrite Hpieces in *.
      change (Js.join (String d "") (Js.str (rev cur) :: p :: pieces))
        with (Js.str (rev cur) +:+ String d "" +:+ Js.join (String d "") (p :: pieces)).
      rewrite !chars_append, chars_str, IH. reflexivity.
    + rewrite IH. simpl. rewrite <- app_assoc. reflexivity.
Qed.

Lemma spaceTo_space l : map (spaceTo " ") l = l.
Proof.
  induction l as [|c l IH]; simpl; [reflexivity|]. rewrite IH. f_equal.
  unfold spaceTo. destruct (Ascii.eqb c " ") eqn:Hc; [|reflexivity].
  apply Ascii.eqb_eq in Hc. congruence.
Qed.

(** X4: [s.split(' ').join(d)] is [s] with every space replaced by [d]
    and nothing else changed; joining with a space gives [s] back; so the
    class part of an element selector is a dot followed by the class
    attribute with its spaces turned into dots. *)
Theorem split_join_replaces_spaces (d : ascii) (s tag : string) :
  Js.join (String d "") (Js.splitSpace s) = Js.str (map (spaceTo d) (Js.chars s))
  /\ Js.join " " (Js.splitSpace s) = s
  /\ selectorText tag None (Some s)
     = if nonBlank (Some s)
       then tag +:+ "." +:+ Js.str (map (spaceTo ".") (Js.chars s))
       else tag.
Proof.
  assert (Hjoin : forall d',
             Js.join (String d' "") (Js.splitSpace s)
             = Js.str (map (spaceTo d') (Js.chars s))).
  { intros d'. rewrite <- (str_chars (Js.join _ _)). f_equal.
    unfold Js.splitSpace. apply join_splitSpaceFrom. }
  repeat split.
  - apply Hjoin.
  - rewrite (Hjoin " "%char), spaceTo_space. apply str_chars.
  - unfold selectorText. change (nonBlank None) with false. cbv iota.
    destruct (nonBlank (Some s)); [|reflexivity].
    change (default "" (Some s)) with s.
    rewrite (Hjoin "."%char). reflexivity.
Qed.






(** ** Waiting methods *)

Section MoreWaits.
Context {W : Type} `{Driver W}.
Variable rev : Revision.
Variable this : SeleniumDriver.

(** X5: for a pattern the [exact] flag is ignored, by the three waiting
    methods and by the two descriptions. *)
Theorem pattern_ignores_exact (r : RegExp) (exact : option bool)
    (selector : string) :
  expectTitle rev this (Pat r) exact = expectTitle rev this (Pat r) None
  /\ expectPage rev this (Pat r) exact = expectPage rev this (Pat r) None
  /\ expectElement rev this selector (Some (Pat r)) exact
     = expectElement rev this selector (Some (Pat r)) None
  /\ _matchText (Pat r) (default false exact) = "matches: '" +:+ regexpToString r +:+ "'"
  /\ _matchTextNot (Pat r) (default false exact)
     = "did not match: '" +:+ regexpToString r +:+ "'".
Proof. destruct exact as [[|]|], rev; repeat split; reflexivity. Qed.

Lemma expectElement_try_some selector content exact (s : State W) a s' :
  expectElement_try this selector content exact s = (Resolved a, s') ->
  exists element, a = Some element.
Proof.
  unfold expectElement_try, bind.
  destruct (call (driver_wait (elementLocated (css selector)) (timeout this)) s)
    as [[u|e] s1]; [|discriminate].
  destruct (call (driver_findElement (css selector)) s1) as [[element|e] s2];
    [|discriminate].
  destruct (call (driver_wait (elementIsVisible element) (timeout this)) s2)
    as [[u'|e] s3]; [|discriminate].
  match goal with
  | |- context [match ?step s3 with _ => _ end] =>
      destruct (step s3) as [[u''|e] s4]; [|discriminate]
  end.
  unfold ret. intros [= <- _]. eauto.
Qed.

(** X6: [expectElement] never resolves with [undefined]: it resolves with
    an element or it rejects. *)
Theorem expectElement_never_undefined (selector : string)
    (content : option MatchTarget) (exact : option bool) (s : State W) :
  fst (expectElement rev this selector content exact s) <> Resolved None.
Proof.
  unfold expectElement, tryCatch.
  destruct (expectElement_try this selector content (default false exact) s)
    as [[a|e] s1] eqn:Htry.
  - apply expectElement_try_some in Htry as [element ->]. discriminate.
  - destruct (awaited_error_rejects rev this
                (VStr (expectElement_msg selector content (default false exact)))
                (ret (None : option WebElement)) s1) as (e' & s' & ->).
    discriminate.
Qed.

(** X7: [expectTitle] resolves exactly when the driver's wait for the
    title condition does, and then it has done nothing but that wait: no
    log is read and no file is written. *)
Theorem expectTitle_resolves_with_wait (title : MatchTarget)
    (exact : option bool) (s : State W) :
  let c := matchPolicy titleMatches titleIs titleContains title
                       (default false exact) in
  isResolved (fst (expectTitle rev this title exact s))
  = isResolved (fst (driver_wait c (timeout this) (world s)))
  /\ (forall w1,
         driver_wait c (timeout this) (world s) = (Resolved tt, w1) ->
         expectTitle rev this title exact s
         = (Resolved tt, mkState w1 (unhandled s))).
Proof.
  intros c. rewrite expectTitle_policy. fold c. split.
  - apply awaiting_error_resolved.
  - intros w1 Hwait. unfold awaiting, tryCatch, call. rewrite Hwait. reflexivity.
Qed.

(** X8: when the wait of [expectStale] is rejected and the element can
    still be read, the failure goes through [error] with the message that
    quotes the element's selector text. *)
Theorem expectStale_reports_selector (element : WebElement) (s : State W)
    (e : JsVal) (i c : option string) (t : string) (w1 w2 w3 w4 : W)
    (Hwait : driver_wait (stalenessOf element) (timeout this) (world s)
             = (Rejected e, w1))
    (Hid : element_getAttribute element "id" w1 = (Resolved i, w2))
    (Hclass : element_getAttribute element "class" w2 = (Resolved c, w3))
    (Htag : element_getTagName element w3 = (Resolved t, w4)) :
  expectStale rev this element s
  = error rev this
      (VStr ("Element is not stale: '" +:+ selectorText t i c +:+ "'"))
      (mkState w4 (unhandled s)).
Proof.
  unfold expectStale.
  erewrite tryCatch_rejected by (apply call_rejected; exact Hwait).
  unfold elementSelector, bind, call, ret. simpl.
  rewrite Hid; simpl. rewrite Hclass; simpl. rewrite Htag; simpl.
  reflexivity.
Qed.

(** X9: when the title wait is rejected and the browser log cannot be
    fetched either, the error raised by [expectTitle] is the one of the
    log fetch: the title message is lost and no directory is made. *)
Theorem expectTitle_failure_masked_by_log_fetch (title : MatchTarget)
    (exact : option bool) (s : State W) (e e' : JsVal) (now : Z)
    (w1 w2 w3 : W)
    (Hwait : driver_wait (matchPolicy titleMatches titleIs titleContains title
                                      (default false exact))
                         (timeout this) (world s) = (Rejected e, w1))
    (Hnow : Date_now w1 = (now, w2))
    (Hlogs : driver_logs_get "browser" w2 = (Rejected e', w3)) :
  expectTitle rev this title exact s = (Rejected e', mkState w3 (unhandled s)).
Proof.
  rewrite expectTitle_policy, (awaiting_timeout _ _ _ _ _ _ Hwait).
  unfold error. unfold_async. simpl.
  replay Hnow. replay Hlogs. reflexivity.
Qed.

End MoreWaits.

Lemma expectTitle_resolves_with_wait_witness :
  expectTitle Rev2 (Sim.facade Rev2) (Lit "Dash") None Sim.initial
  = (Resolved tt, Sim.initial).
Proof.
  apply (expectTitle_resolves_with_wait Rev2 (Sim.facade Rev2) (Lit "Dash") None
           Sim.initial).
  vm_compute. reflexivity.
Defined.

Lemma expectStale_reports_selector_witness :
  fst (expectStale Rev1 (Sim.facade Rev1) 1%nat Sim.initial)
  = Rejected (VError "Element is not stale: 'button#save.btn.primary'").
Proof.
  etransitivity.
  - apply f_equal.
    eapply (expectStale_reports_selector Rev1 (Sim.facade Rev1) 1%nat Sim.initial);
      vm_compute; reflexivity.
  - vm_compute. reflexivity.
Defined.

Lemma expectTitle_failure_masked_by_log_fetch_witness :
  fst (expectTitle Rev2 (Sim.facade Rev2) (Lit "Dashboard") (Some true)
                   (mkState (Sim.setOpen false Sim.page) []))
  = Rejected (VError "NoSuchSessionError").
Proof.
  etransitivity.
  - apply f_equal.
    eapply (expectTitle_failure_masked_by_log_fetch Rev2 (Sim.facade Rev2)
              (Lit "Dashboard") (Some true));
      vm_compute; reflexivity.
  - reflexivity.
Defined.

(** ** More on the resolved options *)

Lemma defaults_has_logLevel rev env : "logLevel" ∈ dom (defaults rev env).
Proof. apply elem_of_dom. destruct rev; eexists; reflexivity. Qed.

(** X10: whatever the caller passes, the log level handed to the browser
    builder is one the level table knows, as long as the table knows
    ["SEVERE"]. *)
Theorem resolved_logLevel_is_known (Level : string -> bool) (rev : Revision)
    (env_BASE_URL : option string) (opts : option (gmap string JsVal))
    (Hsevere : Level "SEVERE" = true) :
  Level (toString (getProp (resolveOptions Level rev env_BASE_URL opts) "logLevel"))
  = true.
Proof.
  unfold getProp at 1. rewrite resolveOptions_logLevel.
  destruct (Level (toString (getProp (assignOptions _ opts) "logLevel"))) eqn:Hknown.
  - exact Hknown.
  - exact Hsevere.
Qed.

Lemma resolved_logLevel_is_known_witness :
  documentedLevel
    (toString (getProp (resolveOptions documentedLevel Rev2 None
                          (Some (<["logLevel" := VNum 3]> ∅))) "logLevel"))
  = true.
Proof. apply resolved_logLevel_is_known. reflexivity. Defined.

(** X11: the keys of the resolved options are exactly the caller's keys
    together with the default ones: the level check adds and removes none,
    and unknown keys of the caller are kept. *)
Theorem resolved_keys (Level : string -> bool) (rev : Revision)
    (env_BASE_URL : option string) (o : gmap string JsVal) :
  dom (resolveOptions Level rev env_BASE_URL (Some o))
  = dom o ∪ dom (defaults rev env_BASE_URL)
  /\ dom (resolveOptions Level rev env_BASE_URL None)
     = dom (defaults rev env_BASE_URL).
Proof.
  pose proof (defaults_has_logLevel rev env_BASE_URL) as Hin.
  unfold resolveOptions. split.
  - destruct (negb _); simpl; rewrite ?dom_insert_L, dom_union_L;
      [|reflexivity].
    apply subseteq_union_1_L, singleton_subseteq_l, elem_of_union_r, Hin.
  - destruct (negb _); simpl; rewrite ?dom_insert_L; [|reflexivity].
    apply subseteq_union_1_L, singleton_subseteq_l, Hin.
Qed.

(** ** Navigation *)

Lemma _pagePath_idempotent p : _pagePath (_pagePath p) = _pagePath p.
Proof.
  destruct p as [|c rest]; [reflexivity|].
  rewrite _pagePath_cases.
  destruct (Ascii.eqb c "/") eqn:Hc.
  - rewrite _pagePath_cases, Hc. reflexivity.
  - change ("/" +:+ String c rest) with (String "/" (String c rest)).
    rewrite _pagePath_cases. reflexivity.
Qed.

Section Navigation.
Context {W : Type} `{Driver W}.

(** X12: a facade built from options that give neither [homePagePath] nor
    [baseUrl] starts by deleting the cookies and then loads the
    environment's base URL, or [http://localhost:3000], followed by a
    slash. *)
Theorem start_visits_home (Level : string -> bool) (rev : Revision)
    (env_BASE_URL : option string) (opts : option (gmap string JsVal))
    (this_timeout : JsVal)
    (Hhome : forall o, opts = Some o -> o !! "homePagePath" = None)
    (Hbase : forall o, opts = Some o -> o !! "baseUrl" = None) :
  start (W := W)
        (mkSeleniumDriver (resolveOptions Level rev env_BASE_URL opts) this_timeout)
  = (call driver_deleteAllCookies ;;;
     call (driver_get (baseUrlDefault env_BASE_URL +:+ "/"))).
Proof.
  unfold start, visit, getProp. cbn [options].
  rewrite !resolveOptions_other by discriminate.
  rewrite !assignOptions_absent by assumption.
  destruct rev; reflexivity.
Qed.

(** X13: when the caller sets [homePagePath] to [undefined], [start]
    deletes the cookies and then rejects with the [TypeError] of reading
    [substr] of [undefined], without loading any page. *)
Theorem start_rejects_without_home_path (Level : string -> bool)
    (rev : Revision) (env_BASE_URL : option string) (o : gmap string JsVal)
    (this_timeout : JsVal) (s : State W) (w1 : W)
    (Hhome : o !! "homePagePath" = Some VUndefined)
    (Hcookies : driver_deleteAllCookies (world s) = (Resolved tt, w1)) :
  start (mkSeleniumDriver (resolveOptions Level rev env_BASE_URL (Some o))
                          this_timeout) s
  = (Rejected
       (TypeError "Cannot read properties of undefined (reading 'substr')"),
     mkState w1 (unhandled s)).
Proof.
  unfold start, visit, getProp, bind, call, throw. cbn [options].
  rewrite resolveOptions_other by discriminate.
  rewrite (assignOptions_supplied rev env_BASE_URL o _ _ Hhome).
  rewrite Hcookies. reflexivity.
Qed.

(** X14: [visit] loads the URL that [expectPage] with [exact] waits for;
    a path is treated alike with and without its leading slash, by both. *)
Theorem visit_and_expectPage_agree (rev : Revision) (this : SeleniumDriver)
    (p : string) (s : State W) :
  let u := toString (getProp (options this) "baseUrl") +:+ _pagePath p in
  visit this (VStr p) = call (driver_get u)
  /\ visit (W := W) this (VStr (_pagePath p)) = visit this (VStr p)
  /\ isResolved (fst (expectPage rev this (Lit p) (Some true) s))
     = isResolved (fst (driver_wait (urlIs u) (timeout this) (world s)))
  /\ isResolved (fst (expectPage rev this (Lit (_pagePath p)) (Some true) s))
     = isResolved (fst (expectPage rev this (Lit p) (Some true) s)).
Proof.
  intros u. repeat split.
  - unfold visit. rewrite _pagePath_idempotent. reflexivity.
  - rewrite expectPage_policy. apply awaiting_error_resolved.
  - rewrite !expectPage_policy, !awaiting_error_resolved. simpl.
    rewrite _pagePath_idempotent. reflexivity.
Qed.

End Navigation.

Lemma start_visits_home_witness :
  snd (start (mkSeleniumDriver
                (resolveOptions documentedLevel Rev2 (Some "http://example.com")
                                (Some (<["timeout" := VNum 50]> ∅)))
                (VNum 50))
             Sim.initial)
  = mkState (Sim.setUrl "http://example.com/" Sim.page) [].
Proof.
  rewrite (start_visits_home (W := Sim.World) documentedLevel Rev2
             (Some "http://example.com") (Some (<["timeout" := VNum 50]> ∅))).
  - reflexivity.
  - intros o [= <-]. reflexivity.
  - intros o [= <-]. reflexivity.
Defined.

Lemma start_rejects_without_home_path_witness :
  start (mkSeleniumDriver
           (resolveOptions documentedLevel Rev2 None
                           (Some (<["homePagePath" := VUndefined]> ∅)))
           (VNum 1000))
        Sim.initial
  = (Rejected
       (TypeError "Cannot read properties of undefined (reading 'substr')"),
     Sim.initial).
Proof.
  apply (start_rejects_without_home_path documentedLevel Rev2 None
           (<["homePagePath" := VUndefined]> ∅) (VNum 1000) Sim.initial Sim.page);
    reflexivity.
Defined.

(** ** Choosing the option in select *)

Lemma pick_fold (matches : WebElement -> bool) opts init :
  let r := fold_left (fun acc o => if matches o then Some o else acc) opts init in
  (r = init /\ Forall (fun o => matches o = false) opts)
  \/ (exists o, r = Some o /\ o ∈ opts /\ matches o = true).
Proof.
  revert init. induction opts as [|opt opts IH]; intros init; simpl.
  - left. split; [reflexivity | constructor].
  - destruct (matches opt) eqn:Hopt.
    + right. destruct (IH (Some opt)) as [[Hr _]|(o & Hr & Hin & Ho)].
      * exists opt. split; [exact Hr|]. split; [left | exact Hopt].
      * exists o. split; [exact Hr|]. split; [right; exact Hin | exact Ho].
    + destruct (IH init) as [[Hr Hnone]|(o & Hr & Hin & Ho)].
      * left. split; [exact Hr|]. constructor; assumption.
      * right. exists o. split; [exact Hr|]. split; [right; exact Hin | exact Ho].
Qed.

Section OptionScan.
Context {W : Type} `{Driver W}.

Lemma scanOptions_fold value attr txt opts init (s : State W) :
  (forall opt, opt ∈ opts ->
     element_getAttribute opt "value" (world s) = (Resolved (attr opt), world s)
     /\ element_getText opt (world s) = (Resolved (txt opt), world s)) ->
  scanOptions value opts init s
  = (Resolved (fold_left (fun acc o => if optionMatches value attr txt o
                                       then Some o else acc) opts init), s).
Proof.
  revert init. induction opts as [|opt opts IH]; intros init Hreads.
  - reflexivity.
  - destruct (Hreads opt) as [Hattr Htxt]; [left|].
    assert (Hs : mkState (world s) (unhandled s) = s) by (destruct s; reflexivity).
    cbn [scanOptions fold_left]. unfold bind at 1. unfold call at 1.
    rewrite Hattr. cbn [world unhandled]. rewrite Hs.
    unfold optionMatches at 2.
    destruct (bool_decide (attr opt = Some value)); cbn [orb].
    + unfold bind, ret. apply IH. intros o Ho. apply Hreads. right. exact Ho.
    + unfold bind at 1. unfold bind at 1. unfold call at 1.
      rewrite Htxt. cbn [world unhandled]. rewrite Hs. unfold ret at 1.
      apply IH. intros o Ho. apply Hreads. right. exact Ho.
Qed.

(** X15: when the options can be read, the scan of [select] ends with an
    option exactly when some option has [value] as its value attribute or
    as its text; the option it ends with is one of the options and is such
    a match; the scan itself changes nothing. *)
Theorem scanOptions_picks_a_match (value : string)
    (attr : WebElement -> option string) (txt : WebElement -> string)
    (opts : list WebElement) (s : State W)
    (Hreads : forall opt, opt ∈ opts ->
       element_getAttribute opt "value" (world s) = (Resolved (attr opt), world s)
       /\ element_getText opt (world s) = (Resolved (txt opt), world s)) :
  exists r,
    scanOptions value opts None s = (Resolved r, s)
    /\ (r = None <-> Forall (fun o => optionMatches value attr txt o = false) opts)
    /\ (forall o, r = Some o -> o ∈ opts /\ optionMatches value attr txt o = true).
Proof.
  eexists. split; [apply (scanOptions_fold value attr txt), Hreads|].
  destruct (pick_fold (optionMatches value attr txt) opts None)
    as [[Hr Hnone]|(o & Hr & Hin & Ho)]; cbv zeta in Hr; rewrite Hr.
  - split; [split; [intros _; exact Hnone | reflexivity] | discriminate].
  - split.
    + split; [discriminate|]. intros Hnone.
      rewrite Forall_forall in Hnone. rewrite (Hnone o Hin) in Ho. discriminate.
    + intros o' [= <-]. split; assumption.
Qed.

(** X16: in the earlier copy, when the [try] block of [select] fails with
    an error object, [select] hands that object to [error], which fails on
    [msg.trim] before it does anything: [select] completes normally, the
    rejection left behind is a [TypeError], and apart from reading the clock
    nothing is touched, so no debug directory is made. *)
Theorem select_Rev1_leaves_TypeError (this : SeleniumDriver)
    (selector value : string) (s s1 s2 : State W)
    (element : option WebElement) (m : string)
    (Helement : expectElement Rev1 this selector None None s
                = (Resolved element, s1))
    (Htry : select_try this element value s1 = (Rejected (VError m), s2)) :
  select Rev1 this selector value s
  = (Resolved tt,
     mkState (snd (Date_now (world s2)))
             (TypeError "msg.trim is not a function" :: unhandled s2)).
Proof.
  unfold select, bind. rewrite Helement.
  rewrite (tryCatch_rejected _ _ _ _ _ Htry).
  unfold detach, error, bind, callTotal, throw.
  destruct (Date_now (world s2)) as [now w3]. reflexivity.
Qed.

End OptionScan.

Lemma scanOptions_picks_a_match_witness :
  fst (scanOptions "Option B" [4%nat; 5%nat] None Sim.initial)
  = Resolved (Some 5%nat).
Proof.
  set (attr := fun o : WebElement =>
         if Nat.eqb o 4 then Some "a" else Some "b").
  set (txt := fun o : WebElement =>
         if Nat.eqb o 4 then "Option A" else "Option B").
  destruct (scanOptions_picks_a_match "Option B" attr txt [4%nat; 5%nat]
              Sim.initial) as (r & Hscan & Hnone & Hsome).
  - intros opt Hopt.
    apply elem_of_cons in Hopt as [->|Hopt]; [split; reflexivity|].
    apply elem_of_cons in Hopt as [->|Hopt]; [split; reflexivity|].
    apply elem_of_nil in Hopt. destruct Hopt.
  - rewrite Hscan. simpl. f_equal.
    destruct r as [o|].
    + destruct (Hsome o eq_refl) as [Hin Hmatch].
      apply elem_of_cons in Hin as [->|Hin]; [discriminate Hmatch|].
      apply elem_of_cons in Hin as [->|Hin]; [reflexivity|].
      apply elem_of_nil in Hin. destruct Hin.
    + destruct Hnone as [Hnone _]. specialize (Hnone eq_refl).
      apply Forall_cons in Hnone as [_ Hnone].
      apply Forall_cons in Hnone as [Hfive _]. discriminate Hfive.
Defined.

Lemma select_Rev1_leaves_TypeError_witness :
  select Rev1 (Sim.facade Rev1) "#dropdown" "Option B" Sim.initial
  = (Resolved tt,
     mkState Sim.page [TypeError "msg.trim is not a function"]).
Proof.
  rewrite (select_Rev1_leaves_TypeError (Sim.facade Rev1) "#dropdown" "Option B"
             Sim.initial Sim.initial Sim.initial (Some 3%nat) "TimeoutError");
    vm_compute; reflexivity.
Defined.

(** ** The constructor *)

(** X17: the constructor throws exactly what the browser builder throws;
    otherwise the facade holds the resolved options, and its [timeout] is
    the [timeout] of those options. The builder is given the resolved
    browser and log level. *)
Theorem constructor_outcome {W} `{Driver W} (Level : string -> bool)
    (rev : Revision) (env_BASE_URL : option string)
    (opts : option (gmap string JsVal)) (s : State W) :
  let resolved := resolveOptions Level rev env_BASE_URL opts in
  newSeleniumDriver Level rev env_BASE_URL opts s
  = match driver_build (getProp resolved "browser")
                       (getProp resolved "logLevel") (world s) with
    | (Resolved _, w1) =>
        (Resolved (mkSeleniumDriver resolved (getProp resolved "timeout")),
         mkState w1 (unhandled s))
    | (Rejected e, w1) => (Rejected e, mkState w1 (unhandled s))
    end.
Proof.
  intros resolved. unfold newSeleniumDriver, bind, call, ret. fold resolved.
  destruct (driver_build _ _ (world s)) as [[u|e] w1]; [|reflexivity].
  unfold getProp, resolved.
  rewrite (resolveOptions_other Level rev env_BASE_URL opts "timeout")
    by discriminate.
  reflexivity.
Qed.

(** ** Scrolling, in the copy of the documentation *)

Section Scrolling.
Context {W : Type} `{ScriptDriver W}.
Variable this : SeleniumDriver.

Lemma scrollTo_rejected element (s : State W) e w1 :
  driver_executeScript "arguments[0].scrollIntoView()" element (world s)
  = (Rejected e, w1) ->
  exists e' s', Docs.scrollTo this element s = (Rejected e', s').
Proof.
  intros Hscript. unfold Docs.scrollTo.
  erewrite tryCatch_rejected by (apply call_rejected; exact Hscript).
  unfold bind.
  destruct (onElement element "getAttribute" elementSelector _)
    as [[selector|e'] s1]; [|eauto].
  apply error_rejects.
Qed.

(** X18: [scrollTo] resolves exactly when the script does, a script
    failure being raised to the caller; and [click] of that copy rejects
    exactly when [expectElement] or [scrollTo] rejects, never because of the
    click itself. *)
Theorem scrollTo_failure_is_raised (selector : string)
    (element : option WebElement) (s : State W) :
  isResolved (fst (Docs.scrollTo this element s))
  = isResolved (fst (driver_executeScript "arguments[0].scrollIntoView()"
                                          element (world s)))
  /\ isRejected (fst (Docs.click this selector s))
     = match expectElement Rev2 this selector None None s with
       | (Resolved el, s1) => isRejected (fst (Docs.scrollTo this el s1))
       | (Rejected _, _) => true
       end.
Proof.
  split.
  - destruct (driver_executeScript _ element (world s)) as [[u|e] w1] eqn:Hscript.
    + unfold Docs.scrollTo, tryCatch, call. rewrite Hscript. reflexivity.
    + destruct (scrollTo_rejected element s e w1 Hscript) as (e' & s' & ->).
      reflexivity.
  - unfold Docs.click, bind.
    destruct (expectElement Rev2 this selector None None s) as [[el|e] s1];
      [|reflexivity].
    destruct (Docs.scrollTo this el s1) as [[u|e] s2]; [|reflexivity].
    destruct (tryCatch_detached_resolves Rev2 this
                (onElement el "click" (fun el' => call (element_click el')))
                (fun _ => VStr ("Unable to click selector: '" +:+ selector +:+ "'"))
                s2) as (s' & ->).
    reflexivity.
Qed.

End Scrolling.

(** ** No promise is left behind by the waiting methods *)

Section AwaitsAll.
Context {W : Type} `{Driver W}.

Lemma awaitsAll_ret {A} (a : A) : awaitsAll (ret (W := W) a).
Proof. intros s. reflexivity. Qed.

Lemma awaitsAll_throw {A} e : awaitsAll (throw (W := W) (A := A) e).
Proof. intros s. reflexivity. Qed.

Lemma awaitsAll_call {A} (op : W -> Outcome A * W) : awaitsAll (call op).
Proof. intros s. unfold call. destruct (op (world s)). reflexivity. Qed.

Lemma awaitsAll_callTotal {A} (op : W -> A * W) : awaitsAll (callTotal op).
Proof. intros s. unfold callTotal. destruct (op (world s)). reflexivity. Qed.

Lemma awaitsAll_effect (op : W -> W) : awaitsAll (effect op).
Proof. intros s. reflexivity. Qed.

Lemma awaitsAll_bind {A B} (m : Async W A) (k : A -> Async W B) :
  awaitsAll m -> (forall a, awaitsAll (k a)) -> awaitsAll (bind m k).
Proof.
  intros Hm Hk s. unfold bind. specialize (Hm s).
  destruct (m s) as [[a|e] s1]; simpl in Hm.
  - rewrite Hk. exact Hm.
  - exact Hm.
Qed.

Lemma awaitsAll_tryCatch {A} (body : Async W A) handler :
  awaitsAll body -> (forall e, awaitsAll (handler e)) ->
  awaitsAll (tryCatch body handler).
Proof.
  intros Hbody Hhandler s. unfold tryCatch. specialize (Hbody s).
  destruct (body s) as [[a|e] s1]; simpl in Hbody.
  - exact Hbody.
  - rewrite Hhandler. exact Hbody.
Qed.

Create HintDb awaits.

#[local] Hint Resolve awaitsAll_ret awaitsAll_throw awaitsAll_call
  awaitsAll_callTotal awaitsAll_effect : awaits.

Ltac awaits :=
  repeat first
    [ apply awaitsAll_bind; [|intros ?]
    | apply awaitsAll_tryCatch; [|intros ?]
    | solve [auto with awaits]
    | match goal with
      | |- awaitsAll (match ?x with _ => _ end) => destruct x
      | |- awaitsAll (if ?b then _ else _) => destruct b
      end ].

Lemma awaitsAll_error rev this msg : awaitsAll (error (W := W) rev this msg).
Proof. unfold error. awaits. Qed.

Lemma awaitsAll_elementSelector element :
  awaitsAll (elementSelector (W := W) element).
Proof. unfold elementSelector. awaits. Qed.

(** X19: [expectElement], [expectTitle], [expectPage], [expectStale],
    [start], [visit] and [quit] await everything they start: whatever
    happens, they leave no rejected promise behind. *)
Theorem waiting_methods_await_everything (rev : Revision)
    (this : SeleniumDriver) :
  (forall selector content exact,
      awaitsAll (expectElement (W := W) rev this selector content exact))
  /\ (forall title exact, awaitsAll (expectTitle (W := W) rev this title exact))
  /\ (forall page exact, awaitsAll (expectPage (W := W) rev this page exact))
  /\ (forall element, awaitsAll (expectStale (W := W) rev this element))
  /\ awaitsAll (start (W := W) this)
  /\ (forall page, awaitsAll (visit (W := W) this page))
  /\ awaitsAll (quit (W := W) this).
Proof.
  pose proof (awaitsAll_error rev this) as Herror.
  pose proof awaitsAll_elementSelector as Hselector.
  assert (Hvisit : forall page, awaitsAll (visit (W := W) this page)).
  { intros page. unfold visit. awaits. }
  repeat split.
  - intros selector content exact.
    unfold expectElement, expectElement_try. awaits.
  - intros title exact. unfold expectTitle. awaits.
  - intros page exact. unfold expectPage. awaits.
  - intros element. unfold expectStale. awaits.
  - unfold start. awaits.
  - exact Hvisit.
  - unfold quit. awaits.
Qed.

End AwaitsAll.
